(** * CouponScorpion scraper: a shallow embedding of
      [udemy_enroller/scrapers/couponscorpion.py]

    The scraper fetches a listing page, pulls the post links out of it,
    pulls the redirect links out of every post and resolves each redirect in a
    browser session.  The development has three layers:

    - [PyStr]: the few [str] methods the scraper calls;
    - [Soup]: the part of a BeautifulSoup tree the scraper queries;
    - [Scraper]: the object, its methods and the outside world (HTTP, HTML
      parser, browser, URL validator), written in a state-and-exception monad. *)

From Stdlib Require Import List String Ascii ZArith Lia Bool DecimalString.
From Stdlib Require DecimalPos DecimalZ.

#[local] Set Warnings "-register-all".
Import ListNotations.
Open Scope string_scope.

(** ** Python strings

    Markup names, class names and URLs are Rocq [string]s: the scraper only
    compares them and passes them on.  The text of a page, which the scraper
    strips, tests with [isdigit] and converts with [int], is a [str] of
    Unicode code points.  What [str] does with a code point of Latin-1 is
    fixed; what it does beyond Latin-1 depends on the Unicode database of
    the interpreter, which is a parameter, as is the interpreter's limit on
    the digits of an integer string. *)
Module PyStr.

(** A [str]: its code points. *)
Definition t : Type := list N.

(** The numeric type of a code point: no digit, a decimal digit with its
    value, or a digit that is not decimal (superscripts, circled digits). *)
Inductive digit_class : Type :=
| NotDigit
| DecimalDigit (value : N)
| OtherDigit.

(** The interpreter: its Unicode database beyond Latin-1 and
    [sys.get_int_max_str_digits()] (0 for no limit). *)
Record runtime : Type := {
  digit_beyond : N -> digit_class;
  space_beyond : N -> bool;
  int_max_str_digits : nat
}.

(** Latin-1: the ASCII digits are decimal; superscript two, three and one
    are digits that are not decimal. *)
Definition latin1_digit (c : N) : digit_class :=
  if (48 <=? c)%N && (c <=? 57)%N then DecimalDigit (c - 48)
  else if (c =? 178)%N || (c =? 179)%N || (c =? 185)%N then OtherDigit
  else NotDigit.

(** Latin-1 white space: TAB, LF, VT, FF, CR, FS, GS, RS, US, SPACE, NEL
    and NBSP. *)
Definition latin1_space (c : N) : bool :=
  ((9 <=? c)%N && (c <=? 13)%N) || ((28 <=? c)%N && (c <=? 32)%N)
  || (c =? 133)%N || (c =? 160)%N.

Section WithRuntime.
Variable rt : runtime.

Definition digit_class_of (c : N) : digit_class :=
  if (c <? 256)%N then latin1_digit c else digit_beyond rt c.

(** The test of [str.isdigit] on one code point. *)
Definition is_digit_char (c : N) : bool :=
  match digit_class_of c with
  | NotDigit => false
  | _ => true
  end.

(** The test of [str.isspace] on one code point. *)
Definition is_space_char (c : N) : bool :=
  if (c <? 256)%N then latin1_space c else space_beyond rt c.

(** [s.isdigit()]: at least one character and every character a digit. *)
Definition isdigit (s : t) : bool :=
  match s with
  | [] => false
  | _ => forallb is_digit_char s
  end.

Fixpoint lstrip (s : t) : t :=
  match s with
  | [] => []
  | c :: r => if is_space_char c then lstrip r else s
  end.

(** Dropping trailing white space: a character is kept when something that
    is kept follows it or when it is not white space itself. *)
Fixpoint rstrip (s : t) : t :=
  match s with
  | [] => []
  | c :: r =>
      match rstrip r with
      | [] => if is_space_char c then [] else [c]
      | r' => c :: r'
      end
  end.

(** [s.strip()]. *)
Definition strip (s : t) : t := rstrip (lstrip s).

(** The decimal value of the characters read so far, or [None] at a
    character that is not a decimal digit. *)
Fixpoint int_acc (acc : Z) (s : t) : option Z :=
  match s with
  | [] => Some acc
  | c :: r =>
      match digit_class_of c with
      | DecimalDigit v => int_acc (10 * acc + Z.of_N v) r
      | _ => None
      end
  end.

(** The limit on integer strings: none when it is 0, and never under 640
    digits. *)
Definition exceeds_limit (s : t) : bool :=
  (0 <? int_max_str_digits rt)%nat
  && (Nat.max (int_max_str_digits rt) 640 <? List.length s)%nat.

(** [int(s)] for a text on which [isdigit] holds, the only texts the
    scraper converts: the decimal value, or [None] for the [ValueError]
    that a digit which is not decimal or a string over the limit raises. *)
Definition int (s : t) : option Z :=
  match s with
  | [] => None
  | _ => if exceeds_limit s then None else int_acc 0 s
  end.

End WithRuntime.

(** The [str] whose code points are the bytes of [s]: the [str] that an
    ASCII literal denotes. *)
Definition of_string (s : string) : t :=
  map (fun a => N.of_nat (nat_of_ascii a)) (list_ascii_of_string s).

(** [sep.join(l)]. *)
Fixpoint join (sep : string) (l : list string) : string :=
  match l with
  | [] => EmptyString
  | [x] => x
  | x :: r => x ++ sep ++ join sep r
  end.

(** [max(l)] on a list that starts with [x]. *)
Definition max_list (x : Z) (l : list Z) : Z := fold_left Z.max l x.

(** Truth value of a [str]: the empty string is false. *)
Definition truthy (s : string) : bool :=
  match s with
  | EmptyString => false
  | _ => true
  end.

End PyStr.

(** ** The BeautifulSoup tree

    A [Tag] carries its name, the two attributes the scraper reads and its
    contents; the text between the tags is a [str].  As in bs4, [class] is
    multi-valued: the parser splits it on
    white space and stores the list of class names; an absent attribute is
    [None].  The [BeautifulSoup] object is itself a [Tag], the root. *)
Module Soup.

Inductive node : Type :=
| NavigableString (s : PyStr.t)
| Tag (name : string) (class_ : option (list string)) (href : option string)
      (contents : list node).

(** [tag.descendants]: every node below [n], in document order. *)
Fixpoint descendants (n : node) : list node :=
  match n with
  | NavigableString _ => []
  | Tag _ _ _ cs => flat_map (fun c => c :: descendants c) cs
  end.

(** [tag.text]: the strings below [n], concatenated. *)
Fixpoint text (n : node) : PyStr.t :=
  match n with
  | NavigableString s => s
  | Tag _ _ _ cs => fold_right (fun c acc => (text c ++ acc)%list) [] cs
  end.

Definition name_is (nm : string) (n : node) : bool :=
  match n with
  | Tag nm' _ _ _ => String.eqb nm nm'
  | NavigableString _ => false
  end.

(** [class_="c"] with a plain string: one of the class names is [c]. *)
Definition has_class (c : string) (n : node) : bool :=
  match n with
  | Tag _ (Some cl) _ _ => existsb (String.eqb c) cl
  | _ => false
  end.

(** [class_=re.compile("^" + p)]: bs4 searches the pattern in each class
    name on its own and then in the names joined by one space. *)
Definition class_starts_with (p : string) (n : node) : bool :=
  match n with
  | Tag _ (Some cl) _ _ =>
      existsb (String.prefix p) cl || String.prefix p (PyStr.join " " cl)
  | _ => false
  end.

(** [href=True]: the attribute is present. *)
Definition has_href (n : node) : bool :=
  match n with
  | Tag _ _ (Some _) _ => true
  | _ => false
  end.

(** [tag.find_all(...)] with the criteria folded into [p]. *)
Definition find_all (p : node -> bool) (n : node) : list node :=
  filter p (descendants n).

(** [tag.find(...)]: the first match of [find_all], or [None]. *)
Definition find (p : node -> bool) (n : node) : option node :=
  hd_error (find_all p n).

(** [a["href"]] on a tag returned by [find("a", href=True)]. *)
Definition get_href (n : node) : option string :=
  match n with
  | Tag _ _ h _ => h
  | NavigableString _ => None
  end.

Definition is_anchor (n : node) : bool := name_is "a" n.
Definition is_anchor_with_href (n : node) : bool := name_is "a" n && has_href n.

End Soup.

(** ** The scraper object and the world around it *)
Module Scraper.
Import PyStr Soup.

(** Exceptions raised by the libraries the scraper calls; all of them are
    subclasses of [Exception], which is what the handlers catch. *)
Inductive exn : Type := Exception (msg : string).

Inductive result (A : Type) : Type :=
| Ok (a : A)
| Raise (e : exn).
Arguments Ok {A} a.
Arguments Raise {A} e.

Inductive level : Type := DEBUG | INFO | ERROR.

(** What the scraper does to the outside, in the order it does it. *)
Inductive event : Type :=
| EvRequestsGet (url : string)
| EvCreateDriver
| EvCloseDriver
| EvDriverGet (url : string)
| EvSleep (seconds : Z)
| EvCurrentUrl
| EvValidate (url : string)
| EvLog (lvl : level).

(** [requests.Response], as far as it is read. *)
Record response : Type := { status_code : Z; resp_text : string }.

(** [resp.raise_for_status()]: 4xx and 5xx raise [HTTPError]. *)
Definition raise_for_status (r : response) : result unit :=
  if (400 <=? status_code r)%Z && (status_code r <? 600)%Z
  then Raise (Exception "HTTPError") else Ok tt.

(** The collaborators.  Calls that reach the network or the browser may
    answer differently every time, so they take the number of external calls
    made before them; the HTML parser and the URL validator are functions
    of their argument.  [python] is the interpreter the scraper runs on. *)
Record world : Type := {
  requests_get : nat -> string -> result response;
  html_parser : string -> result node;
  webdriver_new : nat -> option nat;
  driver_get : nat -> nat -> string -> result unit;
  driver_current_url : nat -> nat -> result string;
  validate_coupon_url : string -> result (option string);
  python : PyStr.runtime
}.

Inductive ScraperStates : Type := RUNNING | COMPLETE | DISABLED.

(** The attributes of a [CouponScorpionScraper]. *)
Record scraper : Type := {
  state : ScraperStates;
  driver : option nat;
  current_page : Z;
  last_page : option Z;
  max_pages : option Z
}.

(** The object together with the clock of external calls and the events so
    far, latest first. *)
Record machine : Type := {
  self : scraper;
  clock : nat;
  trace : list event
}.

Definition boot (s : scraper) : machine :=
  {| self := s; clock := 0; trace := [] |}.

(** *** The monad: state that survives an exception *)

Definition M (A : Type) : Type := machine -> result A * machine.

Definition ret {A} (a : A) : M A := fun m => (Ok a, m).

Definition bind {A B} (c : M A) (k : A -> M B) : M B :=
  fun m =>
    match c m with
    | (Ok a, m') => k a m'
    | (Raise e, m') => (Raise e, m')
    end.

Declare Scope py_scope.
Delimit Scope py_scope with py.
Notation "x <- c ;; k" := (bind c (fun x => k))
  (at level 61, c at next level, right associativity) : py_scope.
Notation "c ;; k" := (bind c (fun _ => k))
  (at level 61, right associativity) : py_scope.
Open Scope py_scope.

Definition lift {A} (r : result A) : M A := fun m => (r, m).

(** [try: body except Exception as e: handler(e)]. *)
Definition try_except {A} (body : M A) (handler : exn -> M A) : M A :=
  fun m =>
    match body m with
    | (Ok a, m') => (Ok a, m')
    | (Raise e, m') => handler e m'
    end.

(** [try: body finally: cleanup]: the cleanup runs on both exits; the
    outcome of the body stands unless the cleanup raises. *)
Definition try_finally {A} (body : M A) (cleanup : M unit) : M A :=
  fun m =>
    match body m with
    | (r, m') =>
        match cleanup m' with
        | (Ok _, m'') => (r, m'')
        | (Raise e, m'') => (Raise e, m'')
        end
    end.

Definition gets {A} (f : scraper -> A) : M A := fun m => (Ok (f (self m)), m).

Definition update (f : scraper -> scraper) : M unit :=
  fun m => (Ok tt, {| self := f (self m); clock := clock m; trace := trace m |}).

Definition emit (e : event) : M unit :=
  fun m => (Ok tt, {| self := self m; clock := clock m; trace := e :: trace m |}).

(** Reads the clock and advances it: one external call. *)
Definition tick : M nat :=
  fun m => (Ok (clock m), {| self := self m; clock := S (clock m); trace := trace m |}).

Definition log (lvl : level) : M unit := emit (EvLog lvl).

(** [for x in l: acc = body(x, acc)]. *)
Fixpoint for_each {A S} (l : list A) (body : A -> S -> M S) (acc : S) : M S :=
  match l with
  | [] => ret acc
  | x :: r => acc' <- body x acc ;; for_each r body acc'
  end.

Definition set_state (st : ScraperStates) (s : scraper) : scraper :=
  {| state := st; driver := driver s; current_page := current_page s;
     last_page := last_page s; max_pages := max_pages s |}.
Definition set_driver (d : option nat) (s : scraper) : scraper :=
  {| state := state s; driver := d; current_page := current_page s;
     last_page := last_page s; max_pages := max_pages s |}.
Definition set_current_page (p : Z) (s : scraper) : scraper :=
  {| state := state s; driver := driver s; current_page := p;
     last_page := last_page s; max_pages := max_pages s |}.
Definition set_last_page (p : option Z) (s : scraper) : scraper :=
  {| state := state s; driver := driver s; current_page := current_page s;
     last_page := p; max_pages := max_pages s |}.
Definition set_max_pages (p : option Z) (s : scraper) : scraper :=
  {| state := state s; driver := driver s; current_page := current_page s;
     last_page := last_page s; max_pages := p |}.

(** *** The base class [SeleniumBaseScraper] *)

(** Modelled from the spec: [SeleniumBaseScraper.__init__], which is not
    part of this file.  A fresh scraper is active, has no browser session
    and its page counter starts at 0. *)
Definition base_init : scraper :=
  {| state := RUNNING; driver := None; current_page := 0;
     last_page := None; max_pages := None |}.

(** Modelled from the spec: [set_state_disabled] of the base class, which
    puts the scraper in the disabled state. *)
Definition set_state_disabled : M unit := update (set_state DISABLED).

(** Modelled from the spec: [is_disabled] of the base class, the test for
    the disabled state. *)
Definition is_disabled : M bool :=
  gets (fun s => match state s with DISABLED => true | _ => false end).

(** Modelled from the spec: [is_complete] of the base class, the test for
    the completed state. *)
Definition is_complete : M bool :=
  gets (fun s => match state s with COMPLETE => true | _ => false end).

Section WithWorld.
Variable w : world.

(** Modelled from the spec: [init_driver] of the base class, which lazily
    initializes the browser session if it is not already active and the
    scraper is not disabled.  A session that cannot be initialized leaves
    [driver] at [None]. *)
Definition init_driver : M unit :=
  d <- gets driver ;;
  dis <- is_disabled ;;
  match d, dis with
  | None, false =>
      t <- tick ;;
      emit EvCreateDriver ;;
      update (set_driver (webdriver_new w t))
  | _, _ => ret tt
  end.

(** Modelled from the spec: [close_driver] of the base class, the explicit
    teardown of the browser session. *)
Definition close_driver : M unit :=
  d <- gets driver ;;
  match d with
  | Some _ => emit EvCloseDriver ;; update (set_driver None)
  | None => ret tt
  end.

(** Modelled from the spec: a bound on the pages, when there is one, is
    reached once the page counter is at it or past it. *)
Definition bound_reached (bound : option Z) (page : Z) : bool :=
  match bound with
  | Some b => (b <=? page)%Z
  | None => false
  end.

(** Modelled from the spec: [max_pages_reached] of the base class.  An
    active scraper becomes completed once the configured page ceiling or the
    discovered last-page bound is reached; the two terminal states are never
    left. *)
Definition max_pages_reached : M unit :=
  s <- gets (fun s => s) ;;
  match state s with
  | RUNNING =>
      if bound_reached (max_pages s) (current_page s)
         || bound_reached (last_page s) (current_page s)
      then update (set_state COMPLETE)
      else ret tt
  | _ => ret tt
  end.

(** Modelled from the spec: the [time_run] decorator of the base class,
    which times the call and hands its result on. *)
Definition time_run {A} (f : M A) : M A := f.

(** *** External calls *)

(** [requests.get(url, headers=headers, timeout=10)]. *)
Definition do_requests_get (url : string) : M response :=
  t <- tick ;;
  emit (EvRequestsGet url) ;;
  lift (requests_get w t url).

(** [BeautifulSoup(text, "html.parser")]. *)
Definition BeautifulSoup (text : string) : M node := lift (html_parser w text).

(** [self.driver.get(url)] on session [d]. *)
Definition do_driver_get (d : nat) (url : string) : M unit :=
  t <- tick ;;
  emit (EvDriverGet url) ;;
  lift (driver_get w d t url).

(** [time.sleep(seconds)]. *)
Definition sleep (seconds : Z) : M unit := emit (EvSleep seconds).

(** [self.driver.current_url] on session [d]. *)
Definition do_current_url (d : nat) : M string :=
  t <- tick ;;
  emit EvCurrentUrl ;;
  lift (driver_current_url w d t).

(** [self.validate_coupon_url(url)]. *)
Definition do_validate (url : string) : M (option string) :=
  emit (EvValidate url) ;;
  lift (validate_coupon_url w url).

(** *** [CouponScorpionScraper] *)

Definition DOMAIN : string := "https://couponscorpion.com".

(** [str(n)] for an [int]. *)
Definition str (n : Z) : string := NilZero.string_of_int (Z.to_int n).

(** [CouponScorpionScraper.__init__(enabled, max_pages)], from the object
    the base class builds. *)
Definition __init__ (enabled : bool) (max_pages : option Z) : scraper :=
  let s := base_init in
  let s := if negb enabled then set_state DISABLED s else s in
  let s := set_max_pages max_pages s in
  set_last_page None s.

(** [a["href"]]: [KeyError] when the attribute is missing. *)
Definition getitem_href (a : node) : result string :=
  match get_href a with
  | Some h => Ok h
  | None => Raise (Exception "KeyError")
  end.

(** The loop shared by the two parsers:
    [for t in tags: a = t.find("a", href=True); if a: links.append(a["href"])]. *)
Definition first_hrefs (tags : list node) : result (list string) :=
  fold_left
    (fun acc t =>
       match acc with
       | Raise e => Raise e
       | Ok links =>
           match find is_anchor_with_href t with
           | Some a =>
               match getitem_href a with
               | Ok h => Ok (links ++ [h])%list
               | Raise e => Raise e
               end
           | None => Ok links
           end
       end)
    tags (Ok []).

(** [soup.find_all("article", class_=re.compile(r"^col_item offer_grid"))]. *)
Definition is_offer_article (n : node) : bool :=
  name_is "article" n && class_starts_with "col_item offer_grid" n.

(** [soup.find("ul", class_="page-numbers")]. *)
Definition is_pagination (n : node) : bool :=
  name_is "ul" n && has_class "page-numbers" n.

(** [soup.find_all("span", class_="rh_button_wrapper")]. *)
Definition is_button_wrapper (n : node) : bool :=
  name_is "span" n && has_class "rh_button_wrapper" n.

(** The loop over [page_links]:
    [text = link.text.strip(); if text.isdigit(): page_numbers.append(int(text))].
    A text that [isdigit] accepts and [int] cannot convert raises. *)
Definition page_numbers_of (page_links : list node) : result (list Z) :=
  fold_left
    (fun acc link =>
       match acc with
       | Raise e => Raise e
       | Ok page_numbers =>
           let text := strip (python w) (Soup.text link) in
           if isdigit (python w) text then
             match int (python w) text with
             | Some n => Ok (page_numbers ++ [n])%list
             | None => Raise (Exception "ValueError")
             end
           else Ok page_numbers
       end)
    page_links (Ok []).

(** The pagination block of [_get_post_links], entered when [last_page] is
    [None]. *)
Definition parse_pagination (soup : node) : M unit :=
  match find is_pagination soup with
  | Some pagination =>
      let page_links := find_all is_anchor pagination in
      page_numbers <- lift (page_numbers_of page_links) ;;
      match page_numbers with
      | x :: r => update (set_last_page (Some (max_list x r)))
      | [] =>
          cp <- gets current_page ;;
          update (set_last_page (Some cp))
      end
  | None => update (set_last_page (Some 1%Z))
  end.

Definition _get_post_links (page_url : string) : M (list string) :=
  try_except
    (resp <- do_requests_get page_url ;;
     lift (raise_for_status resp) ;;
     soup <- BeautifulSoup (resp_text resp) ;;
     let articles := find_all is_offer_article soup in
     post_links <- lift (first_hrefs articles) ;;
     lp <- gets last_page ;;
     match lp with
     | None => parse_pagination soup
     | Some _ => ret tt
     end ;;
     ret post_links)
    (fun e => log DEBUG ;; ret []).

Definition _get_coupon_redirect_links (post_url : string) : M (list string) :=
  try_except
    (resp <- do_requests_get post_url ;;
     lift (raise_for_status resp) ;;
     soup <- BeautifulSoup (resp_text resp) ;;
     let spans := find_all is_button_wrapper soup in
     links <- lift (first_hrefs spans) ;;
     ret links)
    (fun e => log DEBUG ;; ret []).

Definition _resolve_redirect (url : string) : M (option string) :=
  d <- gets driver ;;
  match d with
  | None => ret None
  | Some d =>
      try_except
        (do_driver_get d url ;;
         sleep 2 ;;
         final_url <- do_current_url d ;;
         validated <- do_validate final_url ;;
         match validated with
         | Some v => if truthy v then ret (Some v) else ret None
         | None => ret None
         end)
        (fun e => log DEBUG ;; ret None)
  end.

(** The inner loop body of [gather_udemy_course_links]. *)
Definition resolve_into (redirect_url : string) (udemy_links : list string)
  : M (list string) :=
  final_url <- _resolve_redirect redirect_url ;;
  match final_url with
  | Some v => if truthy v then ret (udemy_links ++ [v])%list else ret udemy_links
  | None => ret udemy_links
  end.

Definition gather_udemy_course_links (post_links : list string) : M (list string) :=
  for_each post_links
    (fun post_url udemy_links =>
       redirect_links <- _get_coupon_redirect_links post_url ;;
       for_each redirect_links resolve_into udemy_links)
    [].

Definition page_url_of (page : Z) : string :=
  if (page =? 1)%Z then DOMAIN else DOMAIN ++ "/page/" ++ str page.

Definition get_links : M (list string) :=
  cp <- gets current_page ;;
  update (set_current_page (cp + 1)) ;;
  init_driver ;;
  d <- gets driver ;;
  match d with
  | None => log ERROR ;; ret []
  | Some _ =>
      cp <- gets current_page ;;
      let page_url := page_url_of cp in
      try_except
        (post_links <- _get_post_links page_url ;;
         log DEBUG ;;
         udemy_links <- gather_udemy_course_links post_links ;;
         for_each udemy_links (fun _ _ => log DEBUG) tt ;;
         ret udemy_links)
        (fun e => log ERROR ;; ret [])
  end.

Definition run : M (list string) :=
  time_run
    (try_finally
       (links <- get_links ;;
        log INFO ;;
        max_pages_reached ;;
        ret links)
       (c <- is_complete ;;
        dis <- is_disabled ;;
        if c || dis then close_driver else ret tt)).

(** [n] calls of [run] in a row, as the pipeline makes them; the links of
    the calls are dropped, the machine is kept. *)
Fixpoint run_n (n : nat) (m : machine) : machine :=
  match n with
  | O => m
  | S k => run_n k (snd (run m))
  end.

(** *** Notions the statements below are phrased with *)

(** The page whose fetch, status check and parse all succeed. *)
Definition page_at (url : string) (m : machine) : option node :=
  match requests_get w (clock m) url with
  | Ok resp =>
      match raise_for_status resp, html_parser w (resp_text resp) with
      | Ok _, Ok soup => Some soup
      | _, _ => None
      end
  | Raise _ => None
  end.

(** What the browser and the validator answer when session [d] is sent to
    [url] in [m]: the validator's answer on the address reached, or the
    exception of the first call that fails. *)
Definition navigation (d : nat) (url : string) (m : machine)
  : result (option string) :=
  match driver_get w d (clock m) url with
  | Raise e => Raise e
  | Ok _ =>
      match driver_current_url w d (S (clock m)) with
      | Raise e => Raise e
      | Ok final_url => validate_coupon_url w final_url
      end
  end.

(** The answers of [_resolve_redirect] on [urls], called one after the
    other from [m], as the inner loop of [gather_udemy_course_links] calls
    it. *)
Fixpoint resolutions (urls : list string) (m : machine) : list (option string) :=
  match urls with
  | [] => []
  | url :: r =>
      match _resolve_redirect url m with
      | (Ok answer, m') => answer :: resolutions r m'
      | (Raise _, _) => []
      end
  end.

(** The listing page [get_links] parses when it is called in [m]: the soup
    of the page, when the call gets a browser session, the fetch answers
    without an HTTP error and the parser accepts the text; [None] when the
    call stops earlier. *)
Definition listing_soup (m : machine) : option node :=
  let m1 :=
    snd ((cp <- gets current_page ;;
          update (set_current_page (cp + 1)) ;;
          init_driver) m) in
  match driver (self m1) with
  | None => None
  | Some _ => page_at (page_url_of (current_page (self m1))) m1
  end.

End WithWorld.

(** The machine after one fetch of [url]. *)
Definition fetched (url : string) (m : machine) : machine :=
  {| self := self m; clock := S (clock m);
     trace := EvRequestsGet url :: trace m |}.

(** The machine after a log entry at level [lvl]. *)
Definition logged (lvl : level) (m : machine) : machine :=
  {| self := self m; clock := clock m; trace := EvLog lvl :: trace m |}.

(** The machine with [last_page] set to [p]. *)
Definition with_last_page (p : Z) (m : machine) : machine :=
  {| self := set_last_page (Some p) (self m); clock := clock m;
     trace := trace m |}.

(** [t.find("a", href=True)["href"]] when the anchor exists: what one
    article or one span contributes to the list of links. *)
Definition first_anchor_href (t : node) : list string :=
  match find is_anchor_with_href t with
  | Some a =>
      match get_href a with
      | Some h => [h]
      | None => []
      end
  | None => []
  end.

(** The tag has an anchor with an [href] below it. *)
Definition contains_anchor (t : node) : bool :=
  existsb is_anchor_with_href (descendants t).

(** The [href]s of all anchors below the tag, in document order. *)
Definition all_anchor_hrefs (t : node) : list string :=
  flat_map (fun a => match get_href a with Some h => [h] | None => [] end)
           (find_all is_anchor_with_href t).

(** The stripped anchor texts that [isdigit] accepts, in order: the
    texts the loop over [page_links] hands to [int]. *)
Definition kept_texts (w : world) (page_links : list node) : list PyStr.t :=
  filter (isdigit (python w))
         (map (fun link => strip (python w) (Soup.text link)) page_links).

(** The values of a list of answers when none is missing. *)
Fixpoint all_some {A} (l : list (option A)) : option (list A) :=
  match l with
  | [] => Some []
  | Some x :: r =>
      match all_some r with
      | Some xs => Some (x :: xs)
      | None => None
      end
  | None :: _ => None
  end.

(** The bound the pagination block of [_get_post_links] assigns to
    [last_page] for a page [soup] parsed while the counter is at [page], or
    the exception the block raises. *)
Definition detected_last_page (w : world) (soup : node) (page : Z) : result Z :=
  match find is_pagination soup with
  | Some pagination =>
      match page_numbers_of w (find_all is_anchor pagination) with
      | Ok (x :: r) => Ok (max_list x r)
      | Ok [] => Ok page
      | Raise e => Raise e
      end
  | None => Ok 1%Z
  end.

(** The bound that a call of [get_links] in [m] detects: the listing page
    is fetched and parsed and its pagination block completes. *)
Definition listing_bound (w : world) (m : machine) : option Z :=
  match listing_soup w m with
  | Some soup =>
      match detected_last_page w soup (current_page (self m) + 1) with
      | Ok p => Some p
      | Raise _ => None
      end
  | None => None
  end.

(** The pagination block of [_get_post_links] on [soup] in [m] does not
    raise: it is skipped because [last_page] is set, or every stripped
    anchor text that [isdigit] accepts converts. *)
Definition pagination_completes (w : world) (soup : node) (m : machine) : bool :=
  match last_page (self m), detected_last_page w soup (current_page (self m)) with
  | None, Raise _ => false
  | _, _ => true
  end.

(** The post links a call of [_get_post_links] on [soup] returns in [m]:
    those of the page, unless the pagination block raises. *)
Definition post_links_of (w : world) (soup : node) (m : machine) : list string :=
  if pagination_completes w soup m
  then flat_map first_anchor_href (find_all is_offer_article soup)
  else [].

(** The validator's answer as the scraper reads it ([if validated:]): a
    non-empty string is an accepted, normalized URL; [None] and the empty
    string are a rejection. *)
Definition accepted (answer : option string) : option string :=
  match answer with
  | Some v => if truthy v then Some v else None
  | None => None
  end.

(** The URLs of the HTTP requests in a trace, latest first. *)
Definition requests_of (tr : list event) : list string :=
  flat_map (fun e => match e with EvRequestsGet url => [url] | _ => [] end) tr.

(** The URLs the browser was sent to in a trace, latest first. *)
Definition navigations_of (tr : list event) : list string :=
  flat_map (fun e => match e with EvDriverGet url => [url] | _ => [] end) tr.

End Scraper.

(** ** Pages and worlds to run the scraper on *)
Module Fixtures.
Import PyStr Soup Scraper.

(** The arrows of a pagination control: U+00BB and U+00AB. *)
Definition raquo : PyStr.t := [187%N].
Definition laquo : PyStr.t := [171%N].

(** An interpreter: beyond Latin-1 its database knows the Arabic-Indic
    digits and the ideographic space; the limit on integer strings is the
    default, 4300. *)
Definition cpython : PyStr.runtime :=
  {| PyStr.digit_beyond := fun c =>
       if (1632 <=? c)%N && (c <=? 1641)%N then PyStr.DecimalDigit (c - 1632)
       else PyStr.NotDigit;
     PyStr.space_beyond := fun c => (c =? 12288)%N;
     PyStr.int_max_str_digits := 4300 |}.

(** An anchor with an [href] and a text. *)
Definition anchor_with (href : string) (text : PyStr.t) : node :=
  Tag "a" None (Some href) [NavigableString text].

(** An anchor with an [href] and an ASCII text. *)
Definition anchor (href text : string) : node :=
  anchor_with href (of_string text).

Definition document (contents : list node) : node :=
  Tag "[document]" None None contents.

(** A pagination control whose anchors read 1, 2, 3 and a closing arrow. *)
Definition pagination_1_2_3 : node :=
  Tag "ul" (Some ["page-numbers"]) None
    [Tag "li" None None [anchor "/page/1" "1"];
     Tag "li" None None [anchor "/page/2" "2"];
     Tag "li" None None [anchor "/page/3" "3"];
     Tag "li" None None [anchor_with "/page/2" raquo]].

(** A listing page: one offer with two anchors, one offer without any, one
    article of another class, and the pagination control. *)
Definition listing_page : node :=
  document
    [Tag "html" None None
       [Tag "article" (Some ["col_item"; "offer_grid"; "rehub-sec-smooth"]) None
          [Tag "div" None None [anchor "post-1" "Course one"; anchor "post-1#more" "more"]];
        Tag "article" (Some ["col_item"; "offer_grid"]) None
          [NavigableString (of_string "expired")];
        Tag "article" (Some ["sidebar"]) None [anchor "about" "About"];
        pagination_1_2_3]].

(** A listing page with a single offer that has no anchor and without a
    pagination control. *)
Definition bare_listing_page : node :=
  document
    [Tag "article" (Some ["col_item"; "offer_grid"]) None
       [NavigableString (of_string "expired")]].

(** A button wrapper with two anchors. *)
Definition two_button_span : node :=
  Tag "span" (Some ["rh_button_wrapper"]) None
    [anchor "go-1" "Get coupon"; anchor "go-2" "Mirror"].

(** A post page: one button wrapper with two anchors, one without any. *)
Definition post_page : node :=
  document
    [two_button_span;
     Tag "span" (Some ["rh_button_wrapper"]) None []].

Definition ok_response (text : string) : response :=
  {| status_code := 200; resp_text := text |}.

Definition course_url : string :=
  "https://www.udemy.com/course/rocq/?couponCode=FREE".

(** Every fetch answers 200 with the URL as its text; the parser knows the
    listing page and the post; the browser always lands on [course_url] and
    the validator accepts exactly that address. *)
Definition friendly_world : world :=
  {| requests_get := fun _ url => Ok (ok_response url);
     html_parser := fun text =>
       if String.eqb text DOMAIN then Ok listing_page
       else if String.eqb text "post-1" then Ok post_page
       else Raise (Exception "ParserRejectedMarkup");
     webdriver_new := fun _ => Some 7%nat;
     driver_get := fun _ _ _ => Ok tt;
     driver_current_url := fun _ _ => Ok course_url;
     validate_coupon_url := fun url =>
       if String.eqb url course_url then Ok (Some url) else Ok None;
     python := cpython |}.

(** The first external call after the session is created (the fetch of the
    listing page on the first [run]) times out; every later fetch answers a
    page without pagination. *)
Definition flaky_world : world :=
  {| requests_get := fun t url =>
       match t with
       | 1%nat => Raise (Exception "ReadTimeout")
       | _ => Ok (ok_response url)
       end;
     html_parser := fun _ => Ok bare_listing_page;
     webdriver_new := fun _ => Some 7%nat;
     driver_get := fun _ _ _ => Ok tt;
     driver_current_url := fun _ _ => Ok course_url;
     validate_coupon_url := fun _ => Ok None;
     python := cpython |}.

(** Nothing works: no session, no network, no parser, no validator. *)
Definition hostile_world : world :=
  {| requests_get := fun _ _ => Raise (Exception "ConnectionError");
     html_parser := fun _ => Raise (Exception "ParserRejectedMarkup");
     webdriver_new := fun _ => None;
     driver_get := fun _ _ _ => Raise (Exception "WebDriverException");
     driver_current_url := fun _ _ => Raise (Exception "WebDriverException");
     validate_coupon_url := fun _ => Raise (Exception "TypeError");
     python := cpython |}.

(** A machine whose scraper holds session 7 on page [page]. *)
Definition with_session (page : Z) (lp : option Z) : machine :=
  boot {| state := RUNNING; driver := Some 7%nat; current_page := page;
          last_page := lp; max_pages := None |}.

(** A listing page whose pagination control has arrows and no number. *)
Definition arrows_only_page : node :=
  document
    [Tag "article" (Some ["col_item"; "offer_grid"]) None
       [anchor "post-1" "Course one"];
     Tag "ul" (Some ["page-numbers"]) None
       [Tag "li" None None [anchor_with "/page/1" laquo];
        Tag "li" None None [anchor_with "/page/3" raquo]]].

(** Every fetch answers 200 and every text parses to [arrows_only_page];
    the browser lands on [course_url], which the validator accepts. *)
Definition arrows_world : world :=
  {| requests_get := fun _ url => Ok (ok_response url);
     html_parser := fun _ => Ok arrows_only_page;
     webdriver_new := fun _ => Some 7%nat;
     driver_get := fun _ _ _ => Ok tt;
     driver_current_url := fun _ _ => Ok course_url;
     validate_coupon_url := fun url =>
       if String.eqb url course_url then Ok (Some url) else Ok None;
     python := cpython |}.

(** Every fetch answers 404 with a body that would parse to the listing
    page. *)
Definition not_found_world : world :=
  {| requests_get := fun _ url => Ok {| status_code := 404; resp_text := url |};
     html_parser := fun _ => Ok listing_page;
     webdriver_new := fun _ => Some 7%nat;
     driver_get := fun _ _ _ => Ok tt;
     driver_current_url := fun _ _ => Ok course_url;
     validate_coupon_url := fun url => Ok (Some url);
     python := cpython |}.

(** A listing page with one offer whose pagination control reads 1 and
    superscript two (U+00B2). *)
Definition superscript_page : node :=
  document
    [Tag "article" (Some ["col_item"; "offer_grid"]) None
       [anchor "post-1" "Course one"];
     Tag "ul" (Some ["page-numbers"]) None
       [Tag "li" None None [anchor "/page/1" "1"];
        Tag "li" None None [anchor_with "/page/2" [178%N]]]].

(** Every fetch answers 200 and every text parses to [superscript_page]. *)
Definition superscript_world : world :=
  {| requests_get := fun _ url => Ok (ok_response url);
     html_parser := fun _ => Ok superscript_page;
     webdriver_new := fun _ => Some 7%nat;
     driver_get := fun _ _ _ => Ok tt;
     driver_current_url := fun _ _ => Ok course_url;
     validate_coupon_url := fun url =>
       if String.eqb url course_url then Ok (Some url) else Ok None;
     python := cpython |}.

End Fixtures.

(** ** Notions for reasoning in the monad *)
Module Logic.
Import Scraper.

(** The computation returns a value from every machine. *)
Definition returns {A} (c : M A) : Prop :=
  forall m, exists a, fst (c m) = Ok a.

(** A relation between the scraper before and after a computation.  The
    clock and the trace are left out: they only record the external calls. *)
Class Frame (R : scraper -> scraper -> Prop) : Prop := {
  frame_refl : forall s, R s s;
  frame_trans : forall a b c, R a b -> R b c -> R a c
}.

(** The computation takes every scraper to one related to it by [R]. *)
Definition keeps (R : scraper -> scraper -> Prop) {A} (c : M A) : Prop :=
  forall m, R (self m) (self (snd (c m))).

(** The page counter stays. *)
Definition same_page (s s' : scraper) : Prop := current_page s' = current_page s.

(** A last page that is set stays what it is. *)
Definition last_page_kept (s s' : scraper) : Prop :=
  forall l, last_page s = Some l -> last_page s' = Some l.

(** The last page stays, set or not. *)
Definition same_last_page (s s' : scraper) : Prop := last_page s' = last_page s.

(** The page counter after is the page counter before plus one. *)
Definition page_advanced (s s' : scraper) : Prop :=
  current_page s' = (current_page s + 1)%Z.

(** The session handle stays. *)
Definition same_driver (s s' : scraper) : Prop := driver s' = driver s.

(** Everything but [last_page] stays. *)
Definition only_last_page_differs (s s' : scraper) : Prop :=
  state s' = state s /\ driver s' = driver s
  /\ current_page s' = current_page s /\ max_pages s' = max_pages s.

(** The computation makes no HTTP request. *)
Definition quiet {A} (c : M A) : Prop :=
  forall m, requests_of (trace (snd (c m))) = requests_of (trace m).

(** The computation makes one HTTP request, to [url]. *)
Definition requesting (url : string) {A} (c : M A) : Prop :=
  forall m, requests_of (trace (snd (c m))) = url :: requests_of (trace m).

(** Every value the computation returns satisfies [P]. *)
Definition yields {A} (P : A -> Prop) (c : M A) : Prop :=
  forall m a, fst (c m) = Ok a -> P a.

(** A loop body that returns its accumulator with some links appended,
    links and final machine not depending on the accumulator. *)
Definition appends {A} (body : A -> list string -> M (list string)) : Prop :=
  forall x m, exists r m',
    forall acc, body x acc m = (Ok (acc ++ r)%list, m').

(** An event other than an HTTP request. *)
Definition not_a_request (e : event) : Prop :=
  match e with
  | EvRequestsGet _ => False
  | _ => True
  end.

(** The link is a non-empty string that the validator of [w] returned for
    some address. *)
Definition validated (w : world) (v : string) : Prop :=
  PyStr.truthy v = true
  /\ exists final, validate_coupon_url w final = Ok (Some v).

End Logic.

(** * Properties *)

Import PyStr Soup Scraper Logic.

(** ** Queries on the tree *)

Lemma find_all_sound (p : node -> bool) (n a : node) :
  In a (find_all p n) -> p a = true /\ In a (descendants n).
Proof.
  unfold find_all. rewrite filter_In. tauto.
Qed.

Lemma find_sound (p : node -> bool) (n a : node) :
  find p n = Some a -> p a = true /\ In a (descendants n).
Proof.
  unfold find. intros H. apply find_all_sound.
  destruct (find_all p n) as [|x r]; simpl in H; [discriminate|].
  injection H as ->. now left.
Qed.

Lemma find_none_iff (p : node -> bool) (n : node) :
  find p n = None <-> existsb p (descendants n) = false.
Proof.
  unfold find, find_all.
  induction (descendants n) as [|x r IH]; simpl.
  - tauto.
  - destruct (p x); simpl; [split; discriminate | exact IH].
Qed.

Lemma anchor_with_href_has_href (a : node) :
  is_anchor_with_href a = true -> exists h, get_href a = Some h.
Proof.
  unfold is_anchor_with_href, has_href, get_href.
  destruct a as [s|nm cl [h|] cs]; simpl; intros H.
  - discriminate.
  - now exists h.
  - rewrite andb_false_r in H. discriminate.
Qed.

(** An article or span contributes one link when it has an anchor with an
    [href] below it, and none otherwise. *)
Lemma first_anchor_href_length (t : node) :
  List.length (first_anchor_href t) = if contains_anchor t then 1%nat else 0%nat.
Proof.
  unfold first_anchor_href, contains_anchor.
  destruct (find is_anchor_with_href t) as [a|] eqn:F.
  - destruct (find_sound _ _ _ F) as [Ha Hin].
    destruct (anchor_with_href_has_href a Ha) as [h ->].
    destruct (existsb _ _) eqn:E; [reflexivity|].
    apply find_none_iff in E. congruence.
  - apply find_none_iff in F. now rewrite F.
Qed.

Lemma first_anchor_href_incl (t : node) (h : string) :
  In h (first_anchor_href t) -> In h (all_anchor_hrefs t).
Proof.
  unfold first_anchor_href, all_anchor_hrefs, find.
  destruct (find_all is_anchor_with_href t) as [|a r]; simpl; [tauto|].
  destruct (get_href a); simpl; [|tauto].
  intros [->|[]]. now left.
Qed.

(** The accumulating loop of the two parsers never raises and collects
    [first_anchor_href] of each tag, in the order of the tags. *)
Lemma first_hrefs_from (tags : list node) (links : list string) :
  fold_left
    (fun acc t =>
       match acc with
       | Raise e => Raise e
       | Ok links =>
           match find is_anchor_with_href t with
           | Some a =>
               match getitem_href a with
               | Ok h => Ok (links ++ [h])%list
               | Raise e => Raise e
               end
           | None => Ok links
           end
       end)
    tags (Ok links)
  = Ok (links ++ flat_map first_anchor_href tags)%list.
Proof.
  revert links. induction tags as [|t r IH]; intros links; simpl.
  - now rewrite app_nil_r.
  - unfold first_anchor_href at 1, getitem_href.
    destruct (find is_anchor_with_href t) as [a|] eqn:F.
    + destruct (find_sound _ _ _ F) as [Ha _].
      destruct (anchor_with_href_has_href a Ha) as [h ->].
      rewrite IH. now rewrite <- app_assoc.
    + now rewrite IH.
Qed.

Lemma first_hrefs_spec (tags : list node) :
  first_hrefs tags = Ok (flat_map first_anchor_href tags).
Proof.
  unfold first_hrefs. now rewrite first_hrefs_from.
Qed.

Lemma flat_map_first_anchor_length (tags : list node) :
  List.length (flat_map first_anchor_href tags)
  = List.length (filter contains_anchor tags).
Proof.
  induction tags as [|t r IH]; simpl; [reflexivity|].
  rewrite length_app, first_anchor_href_length, IH.
  destruct (contains_anchor t); reflexivity.
Qed.

Lemma filter_length_le {A} (p : A -> bool) (l : list A) :
  (List.length (filter p l) <= List.length l)%nat.
Proof.
  induction l as [|x r IH]; simpl; [lia|].
  destruct (p x); simpl; lia.
Qed.

Lemma filter_all {A} (p : A -> bool) (l : list A) :
  forallb p l = true -> filter p l = l.
Proof.
  induction l as [|x r IH]; simpl; [reflexivity|].
  destruct (p x); simpl; [|discriminate].
  intros H. now rewrite IH.
Qed.

(** The loop over the pagination anchors converts, in order, the stripped
    texts that are all digits, and raises at the first that does not
    convert. *)
Lemma page_numbers_from (w : world) (page_links : list node) (acc : result (list Z)) :
  fold_left
    (fun acc link =>
       match acc with
       | Raise e => Raise e
       | Ok page_numbers =>
           let text := strip (python w) (Soup.text link) in
           if isdigit (python w) text then
             match int (python w) text with
             | Some n => Ok (page_numbers ++ [n])%list
             | None => Raise (Exception "ValueError")
             end
           else Ok page_numbers
       end)
    page_links acc
  = match acc with
    | Raise e => Raise e
    | Ok numbers =>
        match all_some (map (int (python w)) (kept_texts w page_links)) with
        | Some more => Ok (numbers ++ more)%list
        | None => Raise (Exception "ValueError")
        end
    end.
Proof.
  revert acc. induction page_links as [|l r IH]; intros acc.
  - destruct acc as [numbers|e]; simpl; [now rewrite app_nil_r|reflexivity].
  - cbn [fold_left]. rewrite IH. destruct acc as [numbers|e]; [|reflexivity].
    unfold kept_texts in *. cbn [map filter]. cbv zeta.
    destruct (isdigit (python w) (strip (python w) (Soup.text l))).
    + cbn [map all_some].
      destruct (int (python w) (strip (python w) (Soup.text l))) as [n|];
        [|reflexivity].
      destruct (all_some _) as [more|]; [|reflexivity].
      now rewrite <- app_assoc.
    + reflexivity.
Qed.

Lemma page_numbers_of_spec (w : world) (page_links : list node) :
  page_numbers_of w page_links
  = match all_some (map (int (python w)) (kept_texts w page_links)) with
    | Some numbers => Ok numbers
    | None => Raise (Exception "ValueError")
    end.
Proof.
  unfold page_numbers_of. now rewrite page_numbers_from.
Qed.


Lemma all_some_Some {A} (l : list (option A)) (xs : list A) :
  all_some l = Some xs -> l = map Some xs.
Proof.
  revert xs. induction l as [|[x|] r IH]; intros xs; simpl.
  - now intros [= <-].
  - destruct (all_some r) as [ys|]; [|discriminate].
    intros [= <-]. simpl. now rewrite (IH ys eq_refl).
  - discriminate.
Qed.

Lemma all_some_None {A} (l : list (option A)) :
  In None l -> all_some l = None.
Proof.
  induction l as [|[x|] r IH]; simpl; [tauto| |reflexivity].
  intros [E|H]; [discriminate|]. now rewrite IH.
Qed.




(** ** Reasoning in the monad *)

Lemma returns_ret {A} (a : A) : returns (ret a).
Proof. intros m. now exists a. Qed.

Lemma returns_bind {A B} (c : M A) (k : A -> M B) :
  returns c -> (forall a, returns (k a)) -> returns (bind c k).
Proof.
  intros Hc Hk m. unfold bind.
  destruct (Hc m) as [a Ha]. destruct (c m) as [r m']. simpl in Ha. subst r.
  apply Hk.
Qed.

Lemma returns_try_except {A} (body : M A) (handler : exn -> M A) :
  (forall e, returns (handler e)) -> returns (try_except body handler).
Proof.
  intros Hh m. unfold try_except.
  destruct (body m) as [[a|e] m'].
  - now exists a.
  - apply Hh.
Qed.

Lemma returns_try_finally {A} (body : M A) (cleanup : M unit) :
  returns body -> returns cleanup -> returns (try_finally body cleanup).
Proof.
  intros Hb Hc m. unfold try_finally.
  destruct (Hb m) as [a Ha]. destruct (body m) as [r m']. simpl in Ha. subst r.
  destruct (Hc m') as [u Hu]. destruct (cleanup m') as [r m'']. simpl in Hu. subst r.
  now exists a.
Qed.

Lemma returns_gets {A} (f : scraper -> A) : returns (gets f).
Proof. intros m. now exists (f (self m)). Qed.

Lemma returns_update (f : scraper -> scraper) : returns (update f).
Proof. intros m. now exists tt. Qed.

Lemma returns_emit (e : event) : returns (emit e).
Proof. intros m. now exists tt. Qed.

Lemma returns_tick : returns tick.
Proof. intros m. now exists (clock m). Qed.

Lemma returns_for_each {A S} (l : list A) (body : A -> S -> M S) :
  (forall x acc, returns (body x acc)) -> forall acc, returns (for_each l body acc).
Proof.
  intros Hb. induction l as [|x r IH]; intros acc; simpl.
  - apply returns_ret.
  - apply returns_bind; [apply Hb | exact IH].
Qed.

Create HintDb returns discriminated.
#[local] Hint Resolve returns_ret returns_gets returns_update returns_emit
  returns_tick : returns.

Ltac returns_step :=
  lazymatch goal with
  | |- returns (try_except _ _) => apply returns_try_except; intros ?
  | |- returns (bind _ _) => apply returns_bind; [|intros ?]
  | |- returns (try_finally _ _) => apply returns_try_finally
  | |- returns (for_each _ _ _) => apply returns_for_each; intros ? ?
  | |- returns (log _) => apply returns_emit
  | |- returns (sleep _) => apply returns_emit
  | |- _ => solve [auto with returns]
  end.

Section Keeps.

Context (R : scraper -> scraper -> Prop) `{Frame R}.

Lemma keeps_ret {A} (a : A) : keeps R (ret a).
Proof. intros m. apply frame_refl. Qed.

Lemma keeps_lift {A} (r : result A) : keeps R (lift r).
Proof. intros m. apply frame_refl. Qed.

Lemma keeps_gets {A} (f : scraper -> A) : keeps R (gets f).
Proof. intros m. apply frame_refl. Qed.

Lemma keeps_emit (e : event) : keeps R (emit e).
Proof. intros m. apply frame_refl. Qed.

Lemma keeps_tick : keeps R tick.
Proof. intros m. apply frame_refl. Qed.

Lemma keeps_update (f : scraper -> scraper) :
  (forall s, R s (f s)) -> keeps R (update f).
Proof. intros Hf m. apply Hf. Qed.

Lemma keeps_bind {A B} (c : M A) (k : A -> M B) :
  keeps R c -> (forall a, keeps R (k a)) -> keeps R (bind c k).
Proof.
  intros Hc Hk m. unfold bind.
  specialize (Hc m). destruct (c m) as [[a|e] m']; simpl in *.
  - eapply frame_trans; [exact Hc | apply Hk].
  - exact Hc.
Qed.

Lemma keeps_try_except {A} (body : M A) (handler : exn -> M A) :
  keeps R body -> (forall e, keeps R (handler e)) -> keeps R (try_except body handler).
Proof.
  intros Hb Hh m. unfold try_except.
  specialize (Hb m). destruct (body m) as [[a|e] m']; simpl in *.
  - exact Hb.
  - eapply frame_trans; [exact Hb | apply Hh].
Qed.

Lemma keeps_try_finally {A} (body : M A) (cleanup : M unit) :
  keeps R body -> keeps R cleanup -> keeps R (try_finally body cleanup).
Proof.
  intros Hb Hc m. unfold try_finally.
  specialize (Hb m). destruct (body m) as [r m']; simpl in *.
  specialize (Hc m'). destruct (cleanup m') as [[u|e] m'']; simpl in *;
    eapply frame_trans; eauto.
Qed.

Lemma keeps_for_each {A S} (l : list A) (body : A -> S -> M S) :
  (forall x acc, keeps R (body x acc)) -> forall acc, keeps R (for_each l body acc).
Proof.
  intros Hb. induction l as [|x r IH]; intros acc; simpl.
  - apply keeps_ret.
  - apply keeps_bind; [apply Hb | exact IH].
Qed.

End Keeps.

Ltac keeps_step :=
  lazymatch goal with
  | |- keeps _ (try_except _ _) => apply keeps_try_except; [exact _ | | intros ?]
  | |- keeps _ (bind _ _) => apply keeps_bind; [exact _ | | intros ?]
  | |- keeps _ (try_finally _ _) => apply keeps_try_finally; [exact _ | | ]
  | |- keeps _ (for_each _ _ _) => apply keeps_for_each; [exact _ | intros ? ?]
  | |- keeps _ (ret _) => apply keeps_ret; exact _
  | |- keeps _ (lift _) => apply keeps_lift; exact _
  | |- keeps _ (gets _) => apply keeps_gets; exact _
  | |- keeps _ (emit _) => apply keeps_emit; exact _
  | |- keeps _ (log _) => apply keeps_emit; exact _
  | |- keeps _ (sleep _) => apply keeps_emit; exact _
  | |- keeps _ tick => apply keeps_tick; exact _
  end.

(** The frames the scraper's methods respect. *)

(** Nothing changes. *)
#[local] Instance untouched : Frame eq.
Proof. split; congruence. Qed.

#[local] Instance same_page_frame : Frame same_page.
Proof. unfold same_page. split; congruence. Qed.

#[local] Instance last_page_kept_frame : Frame last_page_kept.
Proof. unfold last_page_kept. split; auto. Qed.

#[local] Instance same_last_page_frame : Frame same_last_page.
Proof. unfold same_last_page. split; congruence. Qed.

Section Methods.

Variable w : world.

(** The two methods that talk to the post page and to the browser, and the
    loop that drives them, never write an attribute of the scraper. *)
Lemma _get_coupon_redirect_links_untouched (post_url : string) :
  keeps eq (_get_coupon_redirect_links w post_url).
Proof.
  unfold _get_coupon_redirect_links, do_requests_get, BeautifulSoup, log.
  repeat keeps_step.
Qed.

Lemma _resolve_redirect_untouched (url : string) :
  keeps eq (_resolve_redirect w url).
Proof.
  unfold _resolve_redirect. keeps_step; [keeps_step|].
  match goal with x : option nat |- _ => destruct x as [d|] end; [|keeps_step].
  unfold do_driver_get, sleep, do_current_url, do_validate, log.
  repeat keeps_step.
  match goal with x : option string |- _ => destruct x as [v|] end;
    [destruct (truthy v)|]; keeps_step.
Qed.

Lemma gather_udemy_course_links_untouched (post_links : list string) :
  keeps eq (gather_udemy_course_links w post_links).
Proof.
  unfold gather_udemy_course_links.
  keeps_step. keeps_step; [apply _get_coupon_redirect_links_untouched|].
  keeps_step. unfold resolve_into.
  keeps_step; [apply _resolve_redirect_untouched|].
  match goal with x : option string |- _ => destruct x as [v|] end;
    [destruct (truthy v)|]; keeps_step.
Qed.

Lemma keeps_weaken (R : scraper -> scraper -> Prop) `{Frame R} {A} (c : M A) :
  keeps eq c -> keeps R c.
Proof.
  intros Hc m. rewrite <- (Hc m). apply frame_refl.
Qed.

(** A frame that the setters of [driver] and [state] respect, and that
    allows [last_page] to be set while it is [None]. *)
Section Framed.

Context (R : scraper -> scraper -> Prop) `{Frame R}.
Hypothesis R_driver : forall s d, R s (set_driver d s).
Hypothesis R_state : forall s st, R s (set_state st s).
Hypothesis R_first_last_page :
  forall s p, last_page s = None -> R s (set_last_page (Some p) s).

Lemma init_driver_keeps : keeps R (init_driver w).
Proof.
  unfold init_driver, is_disabled.
  keeps_step; [keeps_step|]. keeps_step; [keeps_step|].
  match goal with x : option nat, b : bool |- _ => destruct x, b end;
    repeat keeps_step.
  apply keeps_update. intros s. apply R_driver.
Qed.

Lemma close_driver_keeps : keeps R (close_driver).
Proof.
  unfold close_driver. keeps_step; [keeps_step|].
  match goal with x : option nat |- _ => destruct x end; repeat keeps_step.
  apply keeps_update. intros s. apply R_driver.
Qed.

Lemma max_pages_reached_keeps : keeps R max_pages_reached.
Proof.
  unfold max_pages_reached. keeps_step; [keeps_step|].
  match goal with x : scraper |- _ => destruct (state x) end; try keeps_step.
  match goal with |- context [if ?b then _ else _] => destruct b end.
  - apply keeps_update. intros s. apply R_state.
  - keeps_step.
Qed.

Lemma pagination_block_keeps (soup : node) :
  keeps R (lp <- gets last_page ;;
           match lp with
           | None => parse_pagination w soup
           | Some _ => ret tt
           end).
Proof.
  intros m. unfold bind, gets. simpl.
  destruct (last_page (self m)) eqn:E; simpl; [apply frame_refl|].
  unfold parse_pagination.
  destruct (find is_pagination soup); [|now apply R_first_last_page].
  unfold bind, lift.
  destruct (page_numbers_of w _) as [[|x r]|e]; simpl;
    [now apply R_first_last_page | now apply R_first_last_page
    | apply frame_refl].
Qed.

Lemma _get_post_links_keeps (page_url : string) :
  keeps R (_get_post_links w page_url).
Proof.
  unfold _get_post_links, do_requests_get, BeautifulSoup, log.
  keeps_step; [|repeat keeps_step].
  do 4 (keeps_step; [repeat keeps_step|]).
  change (keeps R
    ((lp <- gets last_page ;;
      match lp with
      | None => parse_pagination w a1
      | Some _ => ret tt
      end) ;; ret a2)).
  keeps_step; [apply pagination_block_keeps | keeps_step].
Qed.

Lemma cleanup_keeps :
  keeps R (c <- is_complete ;;
           dis <- is_disabled ;;
           if c || dis then close_driver else ret tt).
Proof.
  unfold is_complete, is_disabled.
  do 2 (keeps_step; [keeps_step|]).
  match goal with |- context [if ?b then _ else _] => destruct b end;
    [apply close_driver_keeps | keeps_step].
Qed.

(** What [get_links] does after the increment, and the rest of [run]. *)
Lemma scrape_keeps :
  keeps R
    (init_driver w ;;
     d <- gets driver ;;
     match d with
     | None => log ERROR ;; ret []
     | Some _ =>
         cp <- gets current_page ;;
         let page_url := page_url_of cp in
         try_except
           (post_links <- _get_post_links w page_url ;;
            log DEBUG ;;
            udemy_links <- gather_udemy_course_links w post_links ;;
            for_each udemy_links (fun _ _ => log DEBUG) tt ;;
            ret udemy_links)
           (fun e => log ERROR ;; ret [])
     end).
Proof.
  unfold log.
  keeps_step; [apply init_driver_keeps|].
  keeps_step; [keeps_step|].
  match goal with x : option nat |- _ => destruct x end; [|repeat keeps_step].
  keeps_step; [keeps_step|]. cbv zeta.
  keeps_step; [|repeat keeps_step].
  keeps_step; [apply _get_post_links_keeps|].
  keeps_step; [keeps_step|].
  keeps_step; [apply keeps_weaken; [exact _|apply gather_udemy_course_links_untouched]|].
  repeat keeps_step.
Qed.

Lemma after_get_links_keeps (links : list string) :
  keeps R (log INFO ;; max_pages_reached ;; ret links).
Proof.
  unfold log. keeps_step; [keeps_step|].
  keeps_step; [apply max_pages_reached_keeps | keeps_step].
Qed.

End Framed.

(** Sequencing two computations that respect different relations. *)
Lemma keeps_bind_compose (R1 R2 R3 : scraper -> scraper -> Prop) {A B}
      (c : M A) (k : A -> M B) :
  keeps R1 c -> (forall a, keeps R2 (k a)) ->
  (forall a b, R1 a b -> R3 a b) ->
  (forall a b c, R1 a b -> R2 b c -> R3 a c) ->
  keeps R3 (bind c k).
Proof.
  intros Hc Hk H13 H123 m. unfold bind.
  specialize (Hc m). destruct (c m) as [[a|e] m']; simpl in *.
  - eapply H123; [exact Hc | apply Hk].
  - now apply H13.
Qed.

Lemma keeps_try_finally_compose (R1 R2 R3 : scraper -> scraper -> Prop) {A}
      (body : M A) (cleanup : M unit) :
  keeps R1 body -> keeps R2 cleanup ->
  (forall a b c, R1 a b -> R2 b c -> R3 a c) ->
  keeps R3 (try_finally body cleanup).
Proof.
  intros Hb Hc H123 m. unfold try_finally.
  specialize (Hb m). destruct (body m) as [r m']; simpl in *.
  specialize (Hc m'). destruct (cleanup m') as [[u|e] m'']; simpl in *;
    eapply H123; eauto.
Qed.

Lemma get_links_advances : keeps page_advanced (get_links w).
Proof.
  unfold get_links.
  intros m. unfold bind at 1 2, gets at 1, update at 1. simpl.
  match goal with
  | |- page_advanced _ (self (snd (?c ?m0))) =>
      pose proof (scrape_keeps same_page) as K;
      change (page_advanced (self m) (self (snd (c m0))))
  end.
  unfold page_advanced.
  etransitivity; [apply K|reflexivity]; unfold same_page; intros; reflexivity.
Qed.

Lemma run_advances : keeps page_advanced (run w).
Proof.
  unfold run, time_run.
  apply keeps_try_finally_compose with (R1 := page_advanced) (R2 := same_page).
  - apply keeps_bind_compose with (R1 := page_advanced) (R2 := same_page).
    + apply get_links_advances.
    + intros links. apply after_get_links_keeps; [exact _|easy].
    + auto.
    + unfold page_advanced, same_page. congruence.
  - apply cleanup_keeps; [exact _|easy].
  - unfold page_advanced, same_page. congruence.
Qed.

Lemma get_links_keeps_last_page : keeps last_page_kept (get_links w).
Proof.
  unfold get_links.
  keeps_step; [keeps_step|].
  keeps_step; [apply keeps_update; now intros s l|].
  apply scrape_keeps; [exact _|now intros s d l|].
  intros s p E l. congruence.
Qed.

Lemma run_keeps_last_page : keeps last_page_kept (run w).
Proof.
  unfold run, time_run.
  keeps_step.
  - keeps_step; [apply get_links_keeps_last_page|].
    apply after_get_links_keeps; [exact _|now intros s st l].
  - apply cleanup_keeps; [exact _|now intros s d l].
Qed.

(** *** No method lets an exception out *)

Lemma _get_post_links_returns (page_url : string) :
  returns (_get_post_links w page_url).
Proof. unfold _get_post_links. repeat returns_step. Qed.

Lemma _get_coupon_redirect_links_returns (post_url : string) :
  returns (_get_coupon_redirect_links w post_url).
Proof. unfold _get_coupon_redirect_links. repeat returns_step. Qed.

Lemma _resolve_redirect_returns (url : string) :
  returns (_resolve_redirect w url).
Proof.
  unfold _resolve_redirect. returns_step; [returns_step|].
  match goal with x : option nat |- _ => destruct x end; repeat returns_step.
Qed.

Lemma gather_udemy_course_links_returns (post_links : list string) :
  returns (gather_udemy_course_links w post_links).
Proof.
  unfold gather_udemy_course_links.
  returns_step. returns_step; [apply _get_coupon_redirect_links_returns|].
  returns_step. unfold resolve_into.
  returns_step; [apply _resolve_redirect_returns|].
  match goal with x : option string |- _ => destruct x as [v|] end;
    [destruct (truthy v)|]; returns_step.
Qed.

Lemma init_driver_returns : returns (init_driver w).
Proof.
  unfold init_driver, is_disabled.
  do 2 (returns_step; [returns_step|]).
  match goal with x : option nat, b : bool |- _ => destruct x, b end;
    repeat returns_step.
Qed.

Lemma close_driver_returns : returns close_driver.
Proof.
  unfold close_driver. returns_step; [returns_step|].
  match goal with x : option nat |- _ => destruct x end; repeat returns_step.
Qed.

Lemma max_pages_reached_returns : returns max_pages_reached.
Proof.
  unfold max_pages_reached. returns_step; [returns_step|].
  match goal with x : scraper |- _ => destruct (state x) end; try returns_step.
  match goal with |- context [if ?b then _ else _] => destruct b end;
    returns_step.
Qed.

Lemma get_links_returns : returns (get_links w).
Proof.
  unfold get_links.
  do 2 (returns_step; [returns_step|]).
  returns_step; [apply init_driver_returns|].
  returns_step; [returns_step|].
  match goal with x : option nat |- _ => destruct x end; repeat returns_step.
Qed.

Lemma run_returns : returns (run w).
Proof.
  unfold run, time_run. returns_step.
  - returns_step; [apply get_links_returns|].
    returns_step; [returns_step|].
    returns_step; [apply max_pages_reached_returns|returns_step].
  - unfold is_complete, is_disabled.
    do 2 (returns_step; [returns_step|]).
    match goal with |- context [if ?b then _ else _] => destruct b end;
      [apply close_driver_returns | returns_step].
Qed.

End Methods.

(** ** What the parsers compute *)

Section Parsers.

Variable w : world.

Lemma parse_pagination_spec (soup : node) (m : machine) :
  parse_pagination w soup m
  = match detected_last_page w soup (current_page (self m)) with
    | Ok p => (Ok tt, with_last_page p m)
    | Raise e => (Raise e, m)
    end.
Proof.
  unfold parse_pagination, detected_last_page.
  destruct (find is_pagination soup) as [pg|]; [|reflexivity].
  unfold bind, lift.
  destruct (page_numbers_of w (find_all is_anchor pg)) as [[|x r]|e];
    reflexivity.
Qed.

Lemma _get_post_links_success (url : string) (m : machine) (soup : node) :
  page_at w url m = Some soup ->
  _get_post_links w url m
  = match last_page (self m) with
    | Some _ =>
        (Ok (flat_map first_anchor_href (find_all is_offer_article soup)),
         fetched url m)
    | None =>
        match detected_last_page w soup (current_page (self m)) with
        | Ok p =>
            (Ok (flat_map first_anchor_href (find_all is_offer_article soup)),
             with_last_page p (fetched url m))
        | Raise _ => (Ok [], logged DEBUG (fetched url m))
        end
    end.
Proof.
  unfold page_at, _get_post_links, try_except, bind, do_requests_get, tick,
    emit, lift, BeautifulSoup, gets, ret, log. simpl.
  destruct (requests_get w (clock m) url) as [resp|e]; [|discriminate].
  destruct (raise_for_status resp) as [[]|e]; [|discriminate].
  destruct (html_parser w (resp_text resp)) as [soup'|e]; [|discriminate].
  intros [= ->]. rewrite first_hrefs_spec.
  destruct (last_page (self m)) eqn:E; [reflexivity|].
  rewrite parse_pagination_spec. simpl.
  destruct (detected_last_page w soup (current_page (self m))); reflexivity.
Qed.

Lemma _get_post_links_result (url : string) (m : machine) (soup : node) :
  page_at w url m = Some soup ->
  fst (_get_post_links w url m) = Ok (post_links_of w soup m).
Proof.
  intros P. rewrite (_get_post_links_success url m soup P).
  unfold post_links_of, pagination_completes.
  destruct (last_page (self m)); [reflexivity|].
  destruct (detected_last_page w soup (current_page (self m))); reflexivity.
Qed.

Lemma _get_post_links_failure (url : string) (m : machine) :
  page_at w url m = None ->
  fst (_get_post_links w url m) = Ok []
  /\ self (snd (_get_post_links w url m)) = self m.
Proof.
  unfold page_at, _get_post_links, try_except, bind, do_requests_get, tick,
    emit, lift, BeautifulSoup, gets, ret, log. simpl.
  destruct (requests_get w (clock m) url) as [resp|e]; [|now split].
  destruct (raise_for_status resp) as [[]|e]; [|now split].
  destruct (html_parser w (resp_text resp)) as [soup'|e]; [discriminate|now split].
Qed.

Lemma _get_coupon_redirect_links_success (url : string) (m : machine) (soup : node) :
  page_at w url m = Some soup ->
  _get_coupon_redirect_links w url m
  = (Ok (flat_map first_anchor_href (find_all is_button_wrapper soup)),
     fetched url m).
Proof.
  unfold page_at, _get_coupon_redirect_links, try_except, bind,
    do_requests_get, tick, emit, lift, BeautifulSoup, ret. simpl.
  destruct (requests_get w (clock m) url) as [resp|e]; [|discriminate].
  destruct (raise_for_status resp) as [[]|e]; [|discriminate].
  destruct (html_parser w (resp_text resp)) as [soup'|e]; [|discriminate].
  intros [= ->]. now rewrite first_hrefs_spec.
Qed.

Lemma _get_coupon_redirect_links_failure (url : string) (m : machine) :
  page_at w url m = None ->
  fst (_get_coupon_redirect_links w url m) = Ok [].
Proof.
  unfold page_at, _get_coupon_redirect_links, try_except, bind,
    do_requests_get, tick, emit, lift, BeautifulSoup, ret, log. simpl.
  destruct (requests_get w (clock m) url) as [resp|e]; [|reflexivity].
  destruct (raise_for_status resp) as [[]|e]; [|reflexivity].
  destruct (html_parser w (resp_text resp)) as [soup'|e];
    [discriminate|reflexivity].
Qed.

(** *** Resolving one redirect *)

Lemma _resolve_redirect_with_session (d : nat) (url : string) (m : machine) :
  driver (self m) = Some d ->
  fst (_resolve_redirect w url m)
  = Ok (match navigation w d url m with
        | Ok answer => accepted answer
        | Raise _ => None
        end).
Proof.
  intros Hd.
  unfold _resolve_redirect, navigation, accepted, try_except, bind, gets,
    do_driver_get, sleep, do_current_url, do_validate, tick, emit, lift, log,
    ret. simpl. rewrite Hd. simpl.
  destruct (driver_get w d (clock m) url) as [[]|e]; [|reflexivity]. simpl.
  destruct (driver_current_url w d (S (clock m))) as [final|e]; [|reflexivity].
  simpl.
  destruct (validate_coupon_url w final) as [[v|]|e]; try reflexivity.
  destruct (truthy v); reflexivity.
Qed.

Lemma _resolve_redirect_without_session (url : string) (m : machine) :
  driver (self m) = None -> _resolve_redirect w url m = (Ok None, m).
Proof.
  intros Hd. unfold _resolve_redirect, bind, gets, ret. simpl.
  now rewrite Hd.
Qed.

Lemma accepted_truthy (answer : option string) (v : string) :
  accepted answer = Some v -> truthy v = true.
Proof.
  unfold accepted. destruct answer as [u|]; [|discriminate].
  destruct (truthy u) eqn:E; [|discriminate]. now intros [= <-].
Qed.

(** A resolved link is never the empty string, so the second truth test, in
    the loop, tells [None] from a link and nothing else. *)
Lemma _resolve_redirect_truthy (url : string) (m : machine) (v : string) :
  fst (_resolve_redirect w url m) = Ok (Some v) -> truthy v = true.
Proof.
  destruct (driver (self m)) as [d|] eqn:Hd.
  - rewrite (_resolve_redirect_with_session d url m Hd).
    destruct (navigation w d url m) as [answer|e]; [|discriminate].
    intros [= E]. now apply accepted_truthy in E.
  - rewrite (_resolve_redirect_without_session url m Hd). discriminate.
Qed.

Lemma resolve_into_spec (url : string) (links : list string) (m : machine) :
  fst (resolve_into w url links m)
  = Ok (match fst (_resolve_redirect w url m) with
        | Ok (Some v) => (links ++ [v])%list
        | _ => links
        end)
  /\ snd (resolve_into w url links m) = snd (_resolve_redirect w url m).
Proof.
  unfold resolve_into, bind.
  destruct (_resolve_redirect_returns w url m) as [r Hr].
  pose proof (_resolve_redirect_truthy url m) as Ht.
  destruct (_resolve_redirect w url m) as [[[v|]|e] m']; simpl in *;
    try discriminate; try (now split).
  rewrite (Ht v eq_refl). now split.
Qed.

End Parsers.

(** ** [last_page] across one [run] *)

Section Tails.

Context (R : scraper -> scraper -> Prop) `{Frame R}.

Lemma bind_tail {A B} (c : M A) (k : A -> M B) (m : machine) :
  (forall a, keeps R (k a)) ->
  R (self (snd (c m))) (self (snd (bind c k m))).
Proof.
  intros Hk. unfold bind. destruct (c m) as [[a|e] m']; simpl.
  - apply Hk.
  - apply frame_refl.
Qed.

Lemma try_except_tail {A} (body : M A) (handler : exn -> M A) (m : machine) :
  (forall e, keeps R (handler e)) ->
  R (self (snd (body m))) (self (snd (try_except body handler m))).
Proof.
  intros Hh. unfold try_except. destruct (body m) as [[a|e] m']; simpl.
  - apply frame_refl.
  - apply Hh.
Qed.

Lemma try_finally_tail {A} (body : M A) (cleanup : M unit) (m : machine) :
  keeps R cleanup ->
  R (self (snd (body m))) (self (snd (try_finally body cleanup m))).
Proof.
  intros Hc. unfold try_finally. destruct (body m) as [r m']; simpl.
  specialize (Hc m'). destruct (cleanup m') as [[u|e] m'']; exact Hc.
Qed.

End Tails.

Section LastPage.

Variable w : world.

Lemma bind_last_page {A B} (c : M A) (k : A -> M B) (m : machine) :
  (forall a, keeps same_last_page (k a)) ->
  last_page (self (snd (bind c k m))) = last_page (self (snd (c m))).
Proof. exact (bind_tail same_last_page c k m). Qed.

Lemma try_except_last_page {A} (body : M A) (handler : exn -> M A) (m : machine) :
  (forall e, keeps same_last_page (handler e)) ->
  last_page (self (snd (try_except body handler m)))
  = last_page (self (snd (body m))).
Proof. exact (try_except_tail same_last_page body handler m). Qed.

Lemma try_finally_last_page {A} (body : M A) (cleanup : M unit) (m : machine) :
  keeps same_last_page cleanup ->
  last_page (self (snd (try_finally body cleanup m)))
  = last_page (self (snd (body m))).
Proof. exact (try_finally_tail same_last_page body cleanup m). Qed.

(** [init_driver] writes [driver] only. *)
Lemma init_driver_pages (m : machine) :
  last_page (self (snd (init_driver w m))) = last_page (self m)
  /\ current_page (self (snd (init_driver w m))) = current_page (self m).
Proof.
  split.
  - exact (init_driver_keeps w same_last_page (fun _ _ => eq_refl) _).
  - exact (init_driver_keeps w same_page (fun _ _ => eq_refl) _).
Qed.

Lemma last_page_after_get_links (m : machine) :
  last_page (self (snd (get_links w m)))
  = match last_page (self m) with
    | Some l => Some l
    | None => listing_bound w m
    end.
Proof.
  pose (m0 := {| self := set_current_page (current_page (self m) + 1) (self m);
                 clock := clock m; trace := trace m |}).
  unfold listing_bound, listing_soup. cbv zeta.
  change (snd ((cp <- gets current_page ;;
                update (set_current_page (cp + 1)) ;;
                init_driver w) m))
    with (snd (init_driver w m0)).
  unfold get_links. unfold bind at 1 2, gets at 1, update at 1. simpl.
  fold m0.
  destruct (init_driver_pages m0) as [Hlp Hcp]. simpl in Hlp, Hcp.
  destruct (init_driver_returns w m0) as [[] Hi].
  unfold bind at 1.
  destruct (init_driver w m0) as [r m1]. simpl in Hi, Hlp, Hcp |- *. subst r.
  unfold bind at 1, gets at 1. simpl.
  destruct (driver (self m1)) as [d|].
  2:{ simpl. rewrite Hlp. now destruct (last_page (self m)). }
  unfold bind at 1, gets at 1. simpl.
  rewrite try_except_last_page;
    [|intros e; unfold log; repeat keeps_step].
  rewrite bind_last_page.
  2:{ intros links. keeps_step; [keeps_step|].
      keeps_step;
        [apply keeps_weaken; [exact _|apply gather_udemy_course_links_untouched]|].
      repeat keeps_step. }
  destruct (page_at w (page_url_of (current_page (self m1))) m1) as [soup|] eqn:P.
  - rewrite (_get_post_links_success w _ _ _ P). rewrite Hlp, Hcp.
    destruct (last_page (self m)) eqn:El; simpl; [now rewrite Hlp|].
    destruct (detected_last_page w soup (current_page (self m) + 1)); simpl;
      [reflexivity|now rewrite Hlp].
  - destruct (_get_post_links_failure w _ _ P) as [_ ->].
    rewrite Hlp. now destruct (last_page (self m)).
Qed.

Lemma last_page_after_run (m : machine) :
  last_page (self (snd (run w m)))
  = match last_page (self m) with
    | Some l => Some l
    | None => listing_bound w m
    end.
Proof.
  rewrite <- last_page_after_get_links.
  unfold run, time_run.
  rewrite try_finally_last_page;
    [|apply cleanup_keeps; [exact _|easy]].
  rewrite bind_last_page; [reflexivity|].
  intros links. apply after_get_links_keeps; [exact _|easy].
Qed.

End LastPage.

(** ** The scraper: what [run] guarantees *)

Import Fixtures.

Section Disabled.

Variable w : world.

(** A disabled scraper without a session only counts the page. *)
Lemma run_disabled (m : machine) :
  state (self m) = DISABLED -> driver (self m) = None ->
  run w m
  = (Ok [],
     {| self := set_current_page (current_page (self m) + 1) (self m);
        clock := clock m;
        trace := EvLog INFO :: EvLog ERROR :: trace m |}).
Proof.
  intros Hs Hd.
  unfold run, time_run, try_finally, get_links, init_driver, max_pages_reached,
    close_driver, is_complete, is_disabled, log, bind, gets, update, emit, ret.
  repeat (simpl; try rewrite Hs; try rewrite Hd). reflexivity.
Qed.

Lemma run_n_disabled (n : nat) (m : machine) :
  state (self m) = DISABLED -> driver (self m) = None ->
  ~ In EvCreateDriver (trace m) ->
  state (self (run_n w n m)) = DISABLED
  /\ driver (self (run_n w n m)) = None
  /\ ~ In EvCreateDriver (trace (run_n w n m)).
Proof.
  revert m. induction n as [|n IH]; intros m Hs Hd Ht; simpl.
  - auto.
  - rewrite (run_disabled m Hs Hd). simpl. apply IH; simpl; auto.
    intros [E|[E|E]]; [discriminate|discriminate|auto].
Qed.

End Disabled.

Section Counting.

Variable w : world.

Lemma run_n_current_page (n : nat) (m : machine) :
  current_page (self (run_n w n m)) = (current_page (self m) + Z.of_nat n)%Z.
Proof.
  revert m. induction n as [|n IH]; intros m.
  - simpl. lia.
  - cbn [run_n]. rewrite IH. rewrite (run_advances w m). lia.
Qed.

Lemma run_n_add (n k : nat) (m : machine) :
  run_n w (n + k) m = run_n w k (run_n w n m).
Proof.
  revert m. induction n as [|n IH]; intros m; simpl; [reflexivity|apply IH].
Qed.

Lemma run_n_keeps_last_page (n : nat) (m : machine) (l : Z) :
  last_page (self m) = Some l -> last_page (self (run_n w n m)) = Some l.
Proof.
  revert m. induction n as [|n IH]; intros m Hl; simpl; [exact Hl|].
  apply IH. now apply (run_keeps_last_page w m).
Qed.

Lemma fst_bind {A B} (c : M A) (k : A -> M B) (m : machine) (a : A) :
  fst (c m) = Ok a -> fst (bind c k m) = fst (k a (snd (c m))).
Proof.
  unfold bind. destruct (c m) as [r m']. simpl. now intros ->.
Qed.

Lemma fst_try_finally {A} (body : M A) (cleanup : M unit) (m : machine) :
  returns cleanup -> fst (try_finally body cleanup m) = fst (body m).
Proof.
  intros Hc. unfold try_finally. destruct (body m) as [r m']. simpl.
  destruct (Hc m') as [u Hu]. destruct (cleanup m') as [r' m''].
  simpl in Hu. now subst r'.
Qed.

Lemma cleanup_returns :
  returns (c <- is_complete ;;
           dis <- is_disabled ;;
           if c || dis then close_driver else ret tt).
Proof.
  unfold is_complete, is_disabled.
  do 2 (returns_step; [returns_step|]).
  match goal with |- context [if ?b then _ else _] => destruct b end;
    [apply close_driver_returns | returns_step].
Qed.

(** [run] hands on what [get_links] returned. *)
Lemma run_result (m : machine) : fst (run w m) = fst (get_links w m).
Proof.
  unfold run, time_run.
  rewrite fst_try_finally by apply cleanup_returns.
  destruct (get_links_returns w m) as [links Hl].
  rewrite (fst_bind _ _ _ links Hl), Hl.
  rewrite (fst_bind _ _ _ tt) by reflexivity.
  destruct (max_pages_reached_returns (snd (log INFO (snd (get_links w m)))))
    as [[] Hm].
  now rewrite (fst_bind _ _ _ tt Hm).
Qed.

(** When the listing page cannot be had, [get_links] returns no link. *)
Lemma get_links_without_listing (m : machine) :
  listing_soup w m = None -> fst (get_links w m) = Ok [].
Proof.
  pose (m0 := {| self := set_current_page (current_page (self m) + 1) (self m);
                 clock := clock m; trace := trace m |}).
  unfold listing_soup. cbv zeta.
  change (snd ((cp <- gets current_page ;;
                update (set_current_page (cp + 1)) ;;
                init_driver w) m))
    with (snd (init_driver w m0)).
  unfold get_links. unfold bind at 1 2, gets at 1, update at 1. simpl.
  fold m0.
  destruct (init_driver_returns w m0) as [[] Hi].
  unfold bind at 1.
  destruct (init_driver w m0) as [r m1]. simpl in Hi |- *. subst r.
  unfold bind at 1, gets at 1. simpl.
  destruct (driver (self m1)) as [d|]; [|reflexivity].
  unfold bind at 1, gets at 1. simpl. intros P.
  destruct (_get_post_links_failure w _ _ P) as [Hr _].
  unfold try_except, bind.
  destruct (_get_post_links w (page_url_of (current_page (self m1))) m1)
    as [r m2].
  simpl in Hr. subst r. reflexivity.
Qed.

(** The inner loop of [gather_udemy_course_links] appends the links that
    were resolved, in order, and nothing for an answer [None]. *)
Lemma inner_loop_spec (urls : list string) (acc : list string) (m : machine) :
  fst (for_each urls (resolve_into w) acc m)
  = Ok (acc ++ flat_map (fun o => match o with Some v => [v] | None => [] end)
                        (resolutions w urls m))%list.
Proof.
  revert acc m. induction urls as [|url r IH]; intros acc m; simpl.
  - now rewrite app_nil_r.
  - destruct (resolve_into_spec w url acc m) as [Hf Hs].
    destruct (_resolve_redirect_returns w url m) as [answer Ha].
    unfold bind.
    destruct (resolve_into w url acc m) as [r1 m1].
    destruct (_resolve_redirect w url m) as [r2 m2].
    simpl in Hf, Hs, Ha. subst r1 r2 m1.
    rewrite IH. destruct answer as [v|]; simpl.
    + now rewrite <- app_assoc.
    + reflexivity.
Qed.

End Counting.

(** * The claims *)

(** C1: no exception leaves [run]: from every machine and in every world it
    returns a list.  A listing page that cannot be had (no browser session,
    a failed fetch, an HTTP error status, a parser error) makes that list
    empty; a post page that cannot be had yields no redirect link; a
    navigation that raises yields [None]. *)
Theorem run_never_raises (w : world) (m : machine) :
  (exists links, fst (run w m) = Ok links)
  /\ (listing_soup w m = None -> fst (run w m) = Ok [])
  /\ (forall post_url m',
        page_at w post_url m' = None ->
        fst (_get_coupon_redirect_links w post_url m') = Ok [])
  /\ (forall d url m' e,
        driver (self m') = Some d ->
        navigation w d url m' = Raise e ->
        fst (_resolve_redirect w url m') = Ok None).
Proof.
  split; [apply run_returns|].
  split; [intros P; rewrite run_result; now apply get_links_without_listing|].
  split; [intros post_url m'; apply _get_coupon_redirect_links_failure|].
  intros d url m' e Hd Hn.
  rewrite (_resolve_redirect_with_session w d url m' Hd). now rewrite Hn.
Qed.

Lemma run_never_raises_witness :
  fst (run hostile_world (boot (__init__ true None))) = Ok []
  /\ fst (_get_coupon_redirect_links hostile_world "post-1" (with_session 1 None))
     = Ok []
  /\ fst (_resolve_redirect hostile_world "go-1" (with_session 1 None)) = Ok None.
Proof.
  pose proof (run_never_raises hostile_world (boot (__init__ true None)))
    as [_ [H1 [H2 H3]]].
  split; [apply H1; reflexivity|].
  split; [apply H2; reflexivity|].
  apply (H3 7%nat "go-1" (with_session 1 None) (Exception "WebDriverException"));
    reflexivity.
Defined.

(** C2, as the code has it: when the first listing page that is fetched and
    parsed has no pagination control, [last_page] is set to 1, whatever the
    page counter is. *)
Theorem last_page_without_pagination (w : world) (m : machine) (soup : node) :
  last_page (self m) = None ->
  listing_soup w m = Some soup ->
  find is_pagination soup = None ->
  last_page (self (snd (run w m))) = Some 1%Z.
Proof.
  intros Hl Hs Hp. rewrite last_page_after_run, Hl.
  unfold listing_bound. rewrite Hs.
  unfold detected_last_page. now rewrite Hp.
Qed.

Lemma last_page_without_pagination_witness :
  last_page (self (snd (run flaky_world (with_session 4 None)))) = Some 1%Z.
Proof.
  apply (last_page_without_pagination flaky_world (with_session 4 None)
           bare_listing_page); reflexivity.
Defined.

(** C2, as stated, fails: the first fetch times out, so the first page
    that is parsed is page 2; it has no pagination control, and [last_page]
    becomes 1, not 2. *)
Lemma last_page_without_pagination_counterexample :
  let m1 := run_n flaky_world 1 (boot (__init__ true None)) in
  let m2 := run_n flaky_world 2 (boot (__init__ true None)) in
  last_page (self m1) = None
  /\ listing_soup flaky_world m1 = Some bare_listing_page
  /\ find is_pagination bare_listing_page = None
  /\ current_page (self m2) = 2%Z
  /\ last_page (self m2) = Some 1%Z
  /\ last_page (self m2) <> Some (current_page (self m2)).
Proof.
  cbv zeta. repeat split; try reflexivity.
  vm_compute. discriminate.
Qed.

(** C3: a scraper constructed with [enabled=False] is disabled at once, and
    after any number of calls of [run] it is still disabled, has no session
    and has never asked for one. *)
Theorem disabled_never_creates_driver (w : world) (max_pages : option Z) (n : nat) :
  state (__init__ false max_pages) = DISABLED
  /\ state (self (run_n w n (boot (__init__ false max_pages)))) = DISABLED
  /\ driver (self (run_n w n (boot (__init__ false max_pages)))) = None
  /\ ~ In EvCreateDriver (trace (run_n w n (boot (__init__ false max_pages)))).
Proof.
  split; [reflexivity|].
  apply run_n_disabled; simpl; auto.
Qed.

(** C4, as the code has it: the post parser returns, for each button-wrapper
    span in document order, the [href] of the first anchor below it that has
    one; a span without such an anchor contributes nothing, so there are as
    many links as wrappers with an anchor, and every link is the [href] of
    an anchor below a wrapper. *)
Theorem redirect_links_first_anchor_per_span
        (w : world) (post_url : string) (m : machine) (soup : node) :
  page_at w post_url m = Some soup ->
  let spans := find_all is_button_wrapper soup in
  exists links,
    fst (_get_coupon_redirect_links w post_url m) = Ok links
    /\ links = flat_map first_anchor_href spans
    /\ List.length links = List.length (filter contains_anchor spans)
    /\ (forall h, In h links ->
          exists span, In span spans /\ In h (all_anchor_hrefs span)).
Proof.
  intros P spans. exists (flat_map first_anchor_href spans).
  rewrite (_get_coupon_redirect_links_success w _ _ _ P).
  split; [reflexivity|]. split; [reflexivity|].
  split; [apply flat_map_first_anchor_length|].
  intros h Hh. apply in_flat_map in Hh as [span [Hs Hh]].
  exists span. split; [exact Hs|now apply first_anchor_href_incl].
Qed.

Lemma redirect_links_first_anchor_per_span_witness :
  exists links,
    fst (_get_coupon_redirect_links friendly_world "post-1" (with_session 1 None))
    = Ok links
    /\ links = ["go-1"]
    /\ List.length links = 1%nat
    /\ (forall h, In h links ->
          exists span, In span (find_all is_button_wrapper post_page)
                       /\ In h (all_anchor_hrefs span)).
Proof.
  apply (redirect_links_first_anchor_per_span friendly_world "post-1"
           (with_session 1 None) post_page).
  reflexivity.
Defined.

(** C4, as stated, fails: a wrapper with two anchors gives one link; the
    [href] of the second anchor is not returned. *)
Lemma redirect_links_counterexample :
  page_at friendly_world "post-1" (with_session 1 None) = Some post_page
  /\ In two_button_span (find_all is_button_wrapper post_page)
  /\ all_anchor_hrefs two_button_span = ["go-1"; "go-2"]
  /\ fst (_get_coupon_redirect_links friendly_world "post-1" (with_session 1 None))
     = Ok ["go-1"]
  /\ ~ In "go-2" ["go-1"].
Proof.
  repeat split; try reflexivity.
  - now left.
  - intros [E|[]]. discriminate.
Qed.

(** C5, as the code has it: when the pagination block of the call does
    not raise, post-link extraction returns, for each qualifying article in
    document order, the [href] of the first anchor below it that has one,
    and nothing for an article without such an anchor.  With N qualifying
    articles there are at most N links, and exactly N when every qualifying
    article has an anchor. *)
Theorem post_links_one_per_article_with_anchor
        (w : world) (page_url : string) (m : machine) (soup : node) :
  page_at w page_url m = Some soup ->
  pagination_completes w soup m = true ->
  let articles := find_all is_offer_article soup in
  exists links,
    fst (_get_post_links w page_url m) = Ok links
    /\ links = flat_map first_anchor_href articles
    /\ List.length links = List.length (filter contains_anchor articles)
    /\ (List.length links <= List.length articles)%nat
    /\ (forallb contains_anchor articles = true ->
        List.length links = List.length articles).
Proof.
  intros P C articles. exists (flat_map first_anchor_href articles).
  rewrite (_get_post_links_result w _ _ _ P). unfold post_links_of. rewrite C.
  split; [reflexivity|]. split; [reflexivity|].
  rewrite flat_map_first_anchor_length.
  split; [reflexivity|]. split; [apply filter_length_le|].
  intros Hall. now rewrite filter_all.
Qed.

Lemma post_links_one_per_article_with_anchor_witness :
  exists links,
    fst (_get_post_links friendly_world DOMAIN (with_session 1 None)) = Ok links
    /\ links = ["post-1"]
    /\ (List.length links <= 2)%nat.
Proof.
  destruct (post_links_one_per_article_with_anchor friendly_world DOMAIN
              (with_session 1 None) listing_page eq_refl eq_refl)
    as [links [H1 [H2 [_ [H4 _]]]]].
  exists links. split; [exact H1|]. split; [exact H2|exact H4].
Defined.

(** C5, as stated, fails: a listing page with one qualifying article, which
    has no anchor, gives no link at all. *)
Lemma post_links_counterexample :
  page_at flaky_world DOMAIN (with_session 1 None) = Some bare_listing_page
  /\ List.length (find_all is_offer_article bare_listing_page) = 1%nat
  /\ fst (_get_post_links flaky_world DOMAIN (with_session 1 None)) = Ok []
  /\ List.length (@nil string)
     <> List.length (find_all is_offer_article bare_listing_page).
Proof.
  repeat split; try reflexivity.
  vm_compute. discriminate.
Qed.

(** C6: [last_page] is [None] after construction; a [run] whose parse of
    the listing page does not complete (no session, a failed fetch or
    parser, a page number that does not convert) leaves it [None]; the
    first [run] whose parse completes sets it, to the bound detected on that
    page; and once it is set no [run] and no [get_links] changes it. *)
Theorem last_page_assigned_once (w : world) :
  (forall enabled max_pages, last_page (__init__ enabled max_pages) = None)
  /\ (forall m,
        last_page (self m) = None -> listing_bound w m = None ->
        last_page (self (snd (run w m))) = None)
  /\ (forall m p,
        last_page (self m) = None -> listing_bound w m = Some p ->
        last_page (self (snd (run w m))) = Some p)
  /\ (forall m l,
        last_page (self m) = Some l ->
        last_page (self (snd (get_links w m))) = Some l)
  /\ (forall m l n,
        last_page (self m) = Some l ->
        last_page (self (run_n w n m)) = Some l).
Proof.
  split; [reflexivity|].
  split; [intros m Hl Hs; now rewrite last_page_after_run, Hl|].
  split; [intros m p Hl Hs; now rewrite last_page_after_run, Hl|].
  split; [intros m l Hl; now apply (get_links_keeps_last_page w m)|].
  intros m l n Hl. now apply run_n_keeps_last_page.
Qed.

Lemma last_page_assigned_once_witness :
  last_page (self (snd (run hostile_world (boot (__init__ true None))))) = None
  /\ last_page (self (snd (run friendly_world (boot (__init__ true None)))))
     = Some 3%Z
  /\ last_page (self (snd (get_links flaky_world (with_session 1 (Some 3%Z)))))
     = Some 3%Z
  /\ last_page (self (run_n flaky_world 5 (with_session 1 (Some 3%Z))))
     = Some 3%Z.
Proof.
  destruct (last_page_assigned_once hostile_world) as [_ [H1 _]].
  destruct (last_page_assigned_once friendly_world) as [_ [_ [H2 _]]].
  destruct (last_page_assigned_once flaky_world) as [_ [_ [_ [H3 H4]]]].
  split; [apply H1; reflexivity|].
  split; [apply H2; reflexivity|].
  split; [apply H3; reflexivity|].
  apply H4; reflexivity.
Defined.

(** C7: every [run] adds exactly 1 to [current_page], in every world and
    from every machine; so [n] calls add [n], and the counter never goes
    down along a sequence of calls. *)
Theorem run_increments_current_page (w : world) (m : machine) :
  current_page (self (snd (run w m))) = (current_page (self m) + 1)%Z
  /\ (forall n,
        current_page (self (run_n w n m))
        = (current_page (self m) + Z.of_nat n)%Z)
  /\ (forall n k,
        (current_page (self (run_n w n m))
         <= current_page (self (run_n w (n + k) m)))%Z).
Proof.
  split; [apply (run_advances w m)|].
  split; [intros n; apply run_n_current_page|].
  intros n k. rewrite !run_n_current_page. lia.
Qed.

(** C8: with a session, [_resolve_redirect] returns the validator's
    normalized URL when the validator accepts the address reached, and
    [None] when the validator rejects it or the navigation raises.  In the
    loop of [gather_udemy_course_links] an answer [None] leaves the list as
    it is, and the list the loop builds holds the resolved links only. *)
Theorem resolve_redirect_follows_validator
        (w : world) (d : nat) (url : string) (m : machine) :
  driver (self m) = Some d ->
  (forall v,
     navigation w d url m = Ok (Some v) -> truthy v = true ->
     fst (_resolve_redirect w url m) = Ok (Some v))
  /\ (forall answer,
        navigation w d url m = Ok answer -> accepted answer = None ->
        fst (_resolve_redirect w url m) = Ok None)
  /\ (forall e,
        navigation w d url m = Raise e ->
        fst (_resolve_redirect w url m) = Ok None)
  /\ (forall links,
        fst (_resolve_redirect w url m) = Ok None ->
        fst (resolve_into w url links m) = Ok links)
  /\ (forall urls links,
        fst (for_each urls (resolve_into w) links m)
        = Ok (links ++ flat_map (fun o => match o with
                                          | Some v => [v]
                                          | None => []
                                          end)
                                (resolutions w urls m))%list).
Proof.
  intros Hd.
  pose proof (_resolve_redirect_with_session w d url m Hd) as E.
  split; [intros v Hn Hv; rewrite E, Hn; simpl; now rewrite Hv|].
  split; [intros answer Hn Ha; now rewrite E, Hn, Ha|].
  split; [intros e Hn; now rewrite E, Hn|].
  split.
  - intros links Hr. destruct (resolve_into_spec w url links m) as [-> _].
    now rewrite Hr.
  - intros urls links. apply inner_loop_spec.
Qed.

Lemma resolve_redirect_follows_validator_witness :
  fst (_resolve_redirect friendly_world "go-1" (with_session 1 None))
  = Ok (Some course_url)
  /\ fst (_resolve_redirect flaky_world "go-1" (with_session 1 None)) = Ok None
  /\ fst (_resolve_redirect hostile_world "go-1" (with_session 1 None)) = Ok None
  /\ fst (resolve_into flaky_world "go-1" ["kept"] (with_session 1 None))
     = Ok ["kept"].
Proof.
  destruct (resolve_redirect_follows_validator friendly_world 7 "go-1"
              (with_session 1 None) eq_refl) as [H1 _].
  destruct (resolve_redirect_follows_validator flaky_world 7 "go-1"
              (with_session 1 None) eq_refl) as [_ [H2 [_ [H4 _]]]].
  destruct (resolve_redirect_follows_validator hostile_world 7 "go-1"
              (with_session 1 None) eq_refl) as [_ [_ [H3 _]]].
  split; [apply H1; reflexivity|].
  split; [apply (H2 None); reflexivity|].
  split; [apply (H3 (Exception "WebDriverException")); reflexivity|].
  apply H4. apply (H2 None); reflexivity.
Defined.



(** C10: without a session [_resolve_redirect] returns [None] at once: the
    machine is the one it was called in, so nothing was navigated, slept,
    validated or logged. *)
Theorem resolve_redirect_without_driver (w : world) (url : string) (m : machine) :
  driver (self m) = None ->
  _resolve_redirect w url m = (Ok None, m).
Proof.
  apply _resolve_redirect_without_session.
Qed.

Lemma resolve_redirect_without_driver_witness :
  _resolve_redirect friendly_world "go-1" (boot (__init__ true None))
  = (Ok None, boot (__init__ true None)).
Proof.
  apply (resolve_redirect_without_driver friendly_world "go-1"
           (boot (__init__ true None))).
  reflexivity.
Defined.

(** * Further properties of the scraper's methods *)

(** ** The URL of a listing page *)

Lemma append_inj_l (p a b : string) : (p ++ a = p ++ b)%string -> a = b.
Proof.
  induction p as [|c p IH]; simpl; [auto|].
  intros [= E]. auto.
Qed.

Lemma append_not_self (p a : string) : (p = p ++ a)%string -> a = EmptyString.
Proof.
  induction p as [|c p IH]; simpl; [auto|].
  intros [= E]. auto.
Qed.

Lemma to_int_proper (n : Z) :
  Z.to_int n <> Decimal.Pos Decimal.Nil /\ Z.to_int n <> Decimal.Neg Decimal.Nil.
Proof.
  destruct n as [|p|p]; simpl; split; try discriminate;
    intros [= E]; now apply (DecimalPos.Unsigned.to_uint_nonnil p).
Qed.

(** [str] prints different integers differently. *)
Lemma str_inj (a b : Z) : str a = str b -> a = b.
Proof.
  unfold str. intros E. apply DecimalZ.to_int_inj.
  destruct (to_int_proper a) as [A1 A2]. destruct (to_int_proper b) as [B1 B2].
  pose proof (NilZero.isi (Z.to_int a) A1 A2) as Ia.
  pose proof (NilZero.isi (Z.to_int b) B1 B2) as Ib.
  rewrite E in Ia. congruence.
Qed.

(** X1: the URL of a listing page determines the page: two page numbers
    with the same URL are equal, so no two pages are fetched at one URL; and
    only page 1 is fetched at the root URL. *)
Theorem page_url_of_inj (a b : Z) :
  (page_url_of a = page_url_of b -> a = b)
  /\ (page_url_of a = DOMAIN <-> a = 1%Z).
Proof.
  assert (N : forall c, (c =? 1)%Z = false -> page_url_of c <> DOMAIN).
  { intros c Hc. unfold page_url_of. rewrite Hc. intros E.
    symmetry in E. apply append_not_self in E. discriminate. }
  split.
  - destruct (a =? 1)%Z eqn:Ha; destruct (b =? 1)%Z eqn:Hb.
    + intros _. apply Z.eqb_eq in Ha, Hb. congruence.
    + intros E. exfalso. apply (N b Hb). rewrite <- E.
      unfold page_url_of. now rewrite Ha.
    + intros E. exfalso. apply (N a Ha). rewrite E.
      unfold page_url_of. now rewrite Hb.
    + unfold page_url_of. rewrite Ha, Hb. intros E.
      apply append_inj_l in E. apply (append_inj_l "/page/") in E.
      now apply str_inj.
  - split.
    + intros E. destruct (a =? 1)%Z eqn:Ha; [now apply Z.eqb_eq|].
      exfalso. now apply (N a Ha).
    + intros ->. reflexivity.
Qed.

Lemma page_url_of_inj_witness : (2 = 2)%Z /\ (1 = 1)%Z.
Proof.
  split.
  - apply (proj1 (page_url_of_inj 2 2)). reflexivity.
  - apply (proj1 (proj2 (page_url_of_inj 1 1))). reflexivity.
Defined.

(** ** HTTP requests in the trace *)

Lemma quiet_ret {A} (a : A) : quiet (ret a).
Proof. now intros m. Qed.

Lemma quiet_lift {A} (r : result A) : quiet (lift r).
Proof. now intros m. Qed.

Lemma quiet_gets {A} (f : scraper -> A) : quiet (gets f).
Proof. now intros m. Qed.

Lemma quiet_update (f : scraper -> scraper) : quiet (update f).
Proof. now intros m. Qed.

Lemma quiet_tick : quiet tick.
Proof. now intros m. Qed.

Lemma quiet_emit (e : event) : not_a_request e -> quiet (emit e).
Proof. intros He m. destruct e; simpl in *; tauto. Qed.

Lemma quiet_bind {A B} (c : M A) (k : A -> M B) :
  quiet c -> (forall a, quiet (k a)) -> quiet (bind c k).
Proof.
  intros Hc Hk m. unfold bind.
  specialize (Hc m). destruct (c m) as [[a|e] m']; simpl in *.
  - now rewrite Hk.
  - exact Hc.
Qed.

Lemma quiet_try_except {A} (body : M A) (handler : exn -> M A) :
  quiet body -> (forall e, quiet (handler e)) -> quiet (try_except body handler).
Proof.
  intros Hb Hh m. unfold try_except.
  specialize (Hb m). destruct (body m) as [[a|e] m']; simpl in *.
  - exact Hb.
  - now rewrite Hh.
Qed.

Lemma quiet_for_each {A S} (l : list A) (body : A -> S -> M S) :
  (forall x acc, quiet (body x acc)) -> forall acc, quiet (for_each l body acc).
Proof.
  intros Hb. induction l as [|x r IH]; intros acc; simpl.
  - apply quiet_ret.
  - apply quiet_bind; [apply Hb | exact IH].
Qed.

Lemma requesting_bind {A B} (url : string) (c : M A) (k : A -> M B) :
  requesting url c -> (forall a, quiet (k a)) -> requesting url (bind c k).
Proof.
  intros Hc Hk m. unfold bind.
  specialize (Hc m). destruct (c m) as [[a|e] m']; simpl in *.
  - now rewrite Hk.
  - exact Hc.
Qed.

Lemma requesting_try_except {A} (url : string) (body : M A) (handler : exn -> M A) :
  requesting url body -> (forall e, quiet (handler e)) ->
  requesting url (try_except body handler).
Proof.
  intros Hb Hh m. unfold try_except.
  specialize (Hb m). destruct (body m) as [[a|e] m']; simpl in *.
  - exact Hb.
  - now rewrite Hh.
Qed.

Ltac quiet_step :=
  lazymatch goal with
  | |- quiet (try_except _ _) => apply quiet_try_except; [|intros ?]
  | |- quiet (bind _ _) => apply quiet_bind; [|intros ?]
  | |- quiet (for_each _ _ _) => apply quiet_for_each; intros ? ?
  | |- quiet (ret _) => apply quiet_ret
  | |- quiet (lift _) => apply quiet_lift
  | |- quiet (gets _) => apply quiet_gets
  | |- quiet (update _) => apply quiet_update
  | |- quiet tick => apply quiet_tick
  | |- quiet (emit _) => apply quiet_emit; exact I
  | |- quiet (log _) => apply quiet_emit; exact I
  | |- quiet (sleep _) => apply quiet_emit; exact I
  end.

Section Requests.

Variable w : world.

Lemma do_requests_get_requesting (url : string) :
  requesting url (do_requests_get w url).
Proof. now intros m. Qed.

Lemma _get_post_links_requesting (url : string) :
  requesting url (_get_post_links w url).
Proof.
  unfold _get_post_links, BeautifulSoup.
  apply requesting_try_except; [|intros e; repeat quiet_step].
  apply requesting_bind; [apply do_requests_get_requesting|].
  intros resp. do 4 (quiet_step; [repeat quiet_step|]).
  quiet_step; [|quiet_step].
  match goal with x : option Z |- _ => destruct x end; [quiet_step|].
  unfold parse_pagination.
  destruct (find is_pagination _); [|quiet_step].
  quiet_step; [quiet_step|].
  match goal with x : list Z |- _ => destruct x end; repeat quiet_step.
Qed.

Lemma _get_coupon_redirect_links_requesting (url : string) :
  requesting url (_get_coupon_redirect_links w url).
Proof.
  unfold _get_coupon_redirect_links, BeautifulSoup.
  apply requesting_try_except; [|intros e; repeat quiet_step].
  apply requesting_bind; [apply do_requests_get_requesting|].
  intros resp. repeat quiet_step.
Qed.

Lemma _resolve_redirect_quiet (url : string) : quiet (_resolve_redirect w url).
Proof.
  unfold _resolve_redirect. quiet_step; [quiet_step|].
  match goal with x : option nat |- _ => destruct x as [d|] end; [|quiet_step].
  unfold do_driver_get, do_current_url, do_validate.
  repeat quiet_step.
  match goal with x : option string |- _ => destruct x as [v|] end;
    [destruct (truthy v)|]; quiet_step.
Qed.

Lemma resolve_into_quiet (url : string) (links : list string) :
  quiet (resolve_into w url links).
Proof.
  unfold resolve_into. quiet_step; [apply _resolve_redirect_quiet|].
  match goal with x : option string |- _ => destruct x as [v|] end;
    [destruct (truthy v)|]; quiet_step.
Qed.

Lemma init_driver_quiet : quiet (init_driver w).
Proof.
  unfold init_driver, is_disabled.
  do 2 (quiet_step; [quiet_step|]).
  match goal with x : option nat, b : bool |- _ => destruct x, b end;
    repeat quiet_step.
Qed.

(** The clock after one fetch. *)
Lemma _get_post_links_clock (url : string) (m : machine) :
  clock (snd (_get_post_links w url m)) = S (clock m).
Proof.
  unfold _get_post_links, try_except, bind, do_requests_get, tick, emit, lift,
    BeautifulSoup, gets, ret, log. simpl.
  destruct (requests_get w (clock m) url) as [resp|e]; [|reflexivity]. simpl.
  destruct (raise_for_status resp) as [[]|e]; [|reflexivity]. simpl.
  destruct (html_parser w (resp_text resp)) as [soup|e]; [|reflexivity]. simpl.
  rewrite first_hrefs_spec. simpl.
  destruct (last_page (self m)); [reflexivity|].
  rewrite parse_pagination_spec. simpl.
  destruct (detected_last_page w soup (current_page (self m))); reflexivity.
Qed.

Lemma _get_coupon_redirect_links_clock (url : string) (m : machine) :
  clock (snd (_get_coupon_redirect_links w url m)) = S (clock m).
Proof.
  unfold _get_coupon_redirect_links, try_except, bind, do_requests_get, tick,
    emit, lift, BeautifulSoup, ret, log. simpl.
  destruct (requests_get w (clock m) url) as [resp|e]; [|reflexivity]. simpl.
  destruct (raise_for_status resp) as [[]|e]; [|reflexivity]. simpl.
  destruct (html_parser w (resp_text resp)) as [soup|e]; [|reflexivity]. simpl.
  rewrite first_hrefs_spec. reflexivity.
Qed.

End Requests.

#[local] Instance only_last_page_differs_frame : Frame only_last_page_differs.
Proof.
  unfold only_last_page_differs. split.
  - intros s. auto.
  - intros a b c [A1 [A2 [A3 A4]]] [B1 [B2 [B3 B4]]]. repeat split; congruence.
Qed.

#[local] Instance same_driver_frame : Frame same_driver.
Proof. unfold same_driver. split; congruence. Qed.

(** ** The two parsers *)

(** X2: the accumulating loop of the two parsers cannot raise: the
    [KeyError] of [a["href"]] never occurs, since the anchor was found with
    [href=True]; and it returns at most one link per tag. *)
Theorem first_hrefs_never_raises (tags : list node) :
  exists links,
    first_hrefs tags = Ok links
    /\ (List.length links <= List.length tags)%nat.
Proof.
  exists (flat_map first_anchor_href tags).
  split; [apply first_hrefs_spec|].
  rewrite flat_map_first_anchor_length. apply filter_length_le.
Qed.

(** X3: a call of [_get_post_links] makes exactly one HTTP request, to the
    URL it was given, whether the fetch succeeds or not; and of the
    scraper's attributes it can change [last_page] only. *)
Theorem _get_post_links_effects (w : world) (page_url : string) (m : machine) :
  requests_of (trace (snd (_get_post_links w page_url m)))
  = page_url :: requests_of (trace m)
  /\ clock (snd (_get_post_links w page_url m)) = S (clock m)
  /\ only_last_page_differs (self m) (self (snd (_get_post_links w page_url m))).
Proof.
  split; [apply _get_post_links_requesting|].
  split; [apply _get_post_links_clock|].
  apply (_get_post_links_keeps w only_last_page_differs).
  intros s p _. unfold only_last_page_differs. auto.
Qed.

(** X4: a call of [_get_coupon_redirect_links] makes exactly one HTTP
    request, to the post URL, whether the fetch succeeds or not, and changes
    no attribute of the scraper. *)
Theorem _get_coupon_redirect_links_effects
        (w : world) (post_url : string) (m : machine) :
  requests_of (trace (snd (_get_coupon_redirect_links w post_url m)))
  = post_url :: requests_of (trace m)
  /\ clock (snd (_get_coupon_redirect_links w post_url m)) = S (clock m)
  /\ self (snd (_get_coupon_redirect_links w post_url m)) = self m.
Proof.
  split; [apply _get_coupon_redirect_links_requesting|].
  split; [apply _get_coupon_redirect_links_clock|].
  symmetry. apply (_get_coupon_redirect_links_untouched w post_url m).
Qed.

(** X5: an answer with a 4xx or 5xx status is an error for both parsers,
    whatever its body: no link is returned, and [_get_post_links] leaves the
    scraper, [last_page] included, as it was. *)
Theorem http_error_status_yields_nothing
        (w : world) (url : string) (m : machine) (resp : response) :
  requests_get w (clock m) url = Ok resp ->
  (400 <= status_code resp < 600)%Z ->
  fst (_get_post_links w url m) = Ok []
  /\ self (snd (_get_post_links w url m)) = self m
  /\ fst (_get_coupon_redirect_links w url m) = Ok [].
Proof.
  intros Hr Hs.
  assert (P : page_at w url m = None).
  { unfold page_at, raise_for_status. rewrite Hr.
    destruct (Z.leb_spec 400 (status_code resp)); [|lia].
    destruct (Z.ltb_spec (status_code resp) 600); [|lia].
    reflexivity. }
  destruct (_get_post_links_failure w url m P) as [H1 H2].
  split; [exact H1|]. split; [exact H2|].
  now apply _get_coupon_redirect_links_failure.
Qed.

Lemma http_error_status_yields_nothing_witness :
  fst (_get_post_links not_found_world DOMAIN (with_session 1 None)) = Ok []
  /\ self (snd (_get_post_links not_found_world DOMAIN (with_session 1 None)))
     = self (with_session 1 None)
  /\ fst (_get_coupon_redirect_links not_found_world DOMAIN (with_session 1 None))
     = Ok [].
Proof.
  apply (http_error_status_yields_nothing not_found_world DOMAIN
           (with_session 1 None) {| status_code := 404; resp_text := DOMAIN |}).
  - reflexivity.
  - simpl. lia.
Defined.

(** X6: when the pagination control is there and [isdigit] accepts the
    stripped text of none of its anchors, [last_page] becomes the page
    counter of the moment. *)
Theorem last_page_without_numeric_anchor
        (w : world) (page_url : string) (m : machine) (soup pagination : node) :
  last_page (self m) = None ->
  page_at w page_url m = Some soup ->
  find is_pagination soup = Some pagination ->
  filter (isdigit (python w))
         (map (fun a => strip (python w) (Soup.text a))
              (find_all is_anchor pagination)) = [] ->
  last_page (self (snd (_get_post_links w page_url m)))
  = Some (current_page (self m)).
Proof.
  intros Hl P F N.
  rewrite (_get_post_links_success w _ _ _ P), Hl.
  unfold detected_last_page. rewrite F, page_numbers_of_spec.
  unfold kept_texts. rewrite N. reflexivity.
Qed.

Lemma last_page_without_numeric_anchor_witness :
  last_page (self (snd (_get_post_links arrows_world DOMAIN (with_session 5 None))))
  = Some 5%Z.
Proof.
  apply (last_page_without_numeric_anchor arrows_world DOMAIN
           (with_session 5 None) arrows_only_page
           (Tag "ul" (Some ["page-numbers"]) None
              [Tag "li" None None [anchor_with "/page/1" laquo];
               Tag "li" None None [anchor_with "/page/3" raquo]]));
    reflexivity.
Defined.

(** ** Reading a page number *)

Lemma latin1_digit_not_space (c : N) :
  latin1_digit c <> NotDigit -> latin1_space c = false.
Proof.
  unfold latin1_digit, latin1_space.
  destruct (N.leb_spec 48 c); destruct (N.leb_spec c 57); simpl;
    destruct (N.eqb_spec c 178); destruct (N.eqb_spec c 179);
    destruct (N.eqb_spec c 185); simpl; try congruence; intros _;
    destruct (N.leb_spec 9 c); destruct (N.leb_spec c 13);
    destruct (N.leb_spec 28 c); destruct (N.leb_spec c 32);
    destruct (N.eqb_spec c 133); destruct (N.eqb_spec c 160);
    simpl; try reflexivity; lia.
Qed.

Section Reading.

Variable rt : runtime.

(** The database does not call a code point both a digit and white
    space. *)
Hypothesis digit_beyond_not_space :
  forall c, digit_beyond rt c <> NotDigit -> space_beyond rt c = false.

Lemma digit_not_space (c : N) :
  is_digit_char rt c = true -> is_space_char rt c = false.
Proof.
  unfold is_digit_char, is_space_char, digit_class_of.
  destruct (c <? 256)%N; intros H.
  - apply latin1_digit_not_space. intros E. rewrite E in H. discriminate.
  - apply digit_beyond_not_space. intros E. rewrite E in H. discriminate.
Qed.

Lemma lstrip_spaces (l x : PyStr.t) :
  forallb (is_space_char rt) l = true -> lstrip rt (l ++ x)%list = lstrip rt x.
Proof.
  induction l as [|c l IH]; cbn [app forallb lstrip]; [reflexivity|].
  destruct (is_space_char rt c); cbn [andb]; [exact IH|discriminate].
Qed.

Lemma rstrip_spaces (r : PyStr.t) :
  forallb (is_space_char rt) r = true -> rstrip rt r = [].
Proof.
  induction r as [|c r IH]; cbn [forallb rstrip]; [reflexivity|].
  destruct (is_space_char rt c); cbn [andb]; [|discriminate].
  intros H. now rewrite IH.
Qed.

Lemma rstrip_digits (s r : PyStr.t) :
  forallb (is_digit_char rt) s = true -> forallb (is_space_char rt) r = true ->
  rstrip rt (s ++ r)%list = s.
Proof.
  intros Hs Hr. induction s as [|c s IH]; cbn [app rstrip].
  - now apply rstrip_spaces.
  - cbn [forallb] in Hs. apply andb_prop in Hs as [Hc Hs].
    rewrite (IH Hs). rewrite (digit_not_space c Hc).
    now destruct s.
Qed.

(** White space around a number does not count. *)
Lemma strip_padded_digits (l s r : PyStr.t) :
  forallb (is_space_char rt) l = true -> isdigit rt s = true ->
  forallb (is_space_char rt) r = true ->
  strip rt (l ++ s ++ r)%list = s.
Proof.
  intros Hl Hs Hr. unfold strip. rewrite (lstrip_spaces l _ Hl).
  destruct s as [|c s]; [discriminate|].
  unfold isdigit in Hs. cbn [forallb] in Hs.
  pose proof Hs as Hs'. apply andb_prop in Hs as [Hc Hs].
  cbn [app lstrip]. rewrite (digit_not_space c Hc).
  change (c :: (s ++ r)%list) with ((c :: s) ++ r)%list.
  apply rstrip_digits; [|exact Hr]. cbn [forallb]. exact Hs'.
Qed.

Lemma int_acc_nonneg (s : PyStr.t) (acc n : Z) :
  int_acc rt acc s = Some n -> (0 <= acc)%Z -> (0 <= n)%Z.
Proof.
  revert acc. induction s as [|c s IH]; intros acc; cbn [int_acc].
  - intros [= <-]. auto.
  - destruct (digit_class_of rt c) as [|v|]; try discriminate.
    intros H Ha. apply (IH _ H). lia.
Qed.

Lemma int_nonneg (s : PyStr.t) (n : Z) : int rt s = Some n -> (0 <= n)%Z.
Proof.
  unfold int. destruct s as [|c s]; [discriminate|].
  destruct (exceeds_limit rt (c :: s)); [discriminate|].
  intros H. apply (int_acc_nonneg _ _ _ H). lia.
Qed.

End Reading.

Lemma page_numbers_of_app (w : world) (xs ys : list node) :
  page_numbers_of w (xs ++ ys)
  = match page_numbers_of w xs with
    | Ok a =>
        match page_numbers_of w ys with
        | Ok b => Ok (a ++ b)%list
        | Raise e => Raise e
        end
    | Raise e => Raise e
    end.
Proof.
  unfold page_numbers_of at 1. rewrite fold_left_app, !page_numbers_from.
  rewrite !page_numbers_of_spec.
  destruct (all_some (map (int (python w)) (kept_texts w xs))) as [a|];
    [|reflexivity].
  destruct (all_some (map (int (python w)) (kept_texts w ys))) as [b|];
    reflexivity.
Qed.

Lemma page_numbers_of_one (w : world) (a : node) :
  page_numbers_of w [a]
  = if isdigit (python w) (strip (python w) (Soup.text a))
    then match int (python w) (strip (python w) (Soup.text a)) with
         | Some n => Ok [n]
         | None => Raise (Exception "ValueError")
         end
    else Ok [].
Proof. reflexivity. Qed.

(** X7: the loop over the pagination anchors reads each anchor in order.
    On an interpreter whose database calls no code point both a digit and
    white space, an anchor whose text is a run of digits with white space
    around it contributes the value of the digits, which is not negative;
    if the digits do not convert, the loop raises whatever the anchors
    after it read.  An anchor whose stripped text [isdigit] rejects
    contributes nothing. *)
Theorem page_numbers_of_padded_anchor
        (w : world) (before after : list node) (a : node) (l s r : PyStr.t) :
  (forall c, digit_beyond (python w) c <> NotDigit ->
             space_beyond (python w) c = false) ->
  Soup.text a = (l ++ s ++ r)%list ->
  forallb (is_space_char (python w)) l = true ->
  forallb (is_space_char (python w)) r = true ->
  (isdigit (python w) s = true ->
   page_numbers_of w (before ++ a :: after)
   = match page_numbers_of w before, int (python w) s with
     | Raise e, _ => Raise e
     | Ok _, None => Raise (Exception "ValueError")
     | Ok xs, Some n =>
         match page_numbers_of w after with
         | Ok ys => Ok (xs ++ n :: ys)%list
         | Raise e => Raise e
         end
     end
   /\ forall n, int (python w) s = Some n -> (0 <= n)%Z)
  /\ (isdigit (python w) (strip (python w) (Soup.text a)) = false ->
      page_numbers_of w (before ++ a :: after)
      = page_numbers_of w (before ++ after)).
Proof.
  intros Hdb Ht Hl Hr.
  change (a :: after) with ([a] ++ after)%list.
  rewrite (page_numbers_of_app w before ([a] ++ after)).
  rewrite (page_numbers_of_app w [a] after), page_numbers_of_one.
  split.
  - intros Hs. split; [|intros n; apply int_nonneg].
    rewrite Ht, (strip_padded_digits (python w) Hdb l s r Hl Hs Hr), Hs.
    destruct (page_numbers_of w before) as [xs|e]; [|reflexivity].
    destruct (int (python w) s) as [n|]; [|reflexivity].
    destruct (page_numbers_of w after); reflexivity.
  - intros Hn. rewrite Hn, (page_numbers_of_app w before after).
    destruct (page_numbers_of w before) as [xs|e]; [|reflexivity].
    destruct (page_numbers_of w after); reflexivity.
Qed.

Lemma page_numbers_of_padded_anchor_witness :
  (page_numbers_of friendly_world
     ([anchor "/page/1" "1"] ++ anchor_with "/page/7" [160; 55; 32]%N :: [])
   = Ok [1; 7]%Z
   /\ forall n, int cpython [55%N] = Some n -> (0 <= n)%Z)
  /\ page_numbers_of friendly_world
       ([] ++ anchor_with "/next" [32; 187; 32]%N :: [])
     = page_numbers_of friendly_world ([] ++ []).
Proof.
  assert (D : forall c, digit_beyond cpython c <> NotDigit ->
                        space_beyond cpython c = false).
  { intros c. simpl.
    destruct (N.leb_spec 1632 c); destruct (N.leb_spec c 1641); simpl;
      try congruence.
    intros _. apply N.eqb_neq. lia. }
  split.
  - apply (proj1 (page_numbers_of_padded_anchor friendly_world
                    [anchor "/page/1" "1"] []
                    (anchor_with "/page/7" [160; 55; 32]%N)
                    [160%N] [55%N] [32%N] D eq_refl eq_refl eq_refl)).
    reflexivity.
  - apply (proj2 (page_numbers_of_padded_anchor friendly_world [] []
                    (anchor_with "/next" [32; 187; 32]%N)
                    [32%N] [187%N] [32%N] D eq_refl eq_refl eq_refl)).
    reflexivity.
Defined.

(** ** Resolving a redirect *)

(** X8: with a session, [_resolve_redirect] sends the browser to the URL
    exactly once, whatever happens next (there is no second attempt), makes
    no HTTP request and changes no attribute of the scraper, so the session
    survives a failed navigation.  When [driver.get] raises, the only thing
    that follows is the debug log: no sleep, no read of the address, no
    call of the validator.  When every call answers, the order is: get,
    sleep 2, read the address, validate it. *)
Theorem _resolve_redirect_single_attempt
        (w : world) (d : nat) (url : string) (m : machine) :
  driver (self m) = Some d ->
  navigations_of (trace (snd (_resolve_redirect w url m)))
  = url :: navigations_of (trace m)
  /\ requests_of (trace (snd (_resolve_redirect w url m)))
     = requests_of (trace m)
  /\ self (snd (_resolve_redirect w url m)) = self m
  /\ (forall e,
        driver_get w d (clock m) url = Raise e ->
        trace (snd (_resolve_redirect w url m))
        = EvLog DEBUG :: EvDriverGet url :: trace m)
  /\ (forall final answer,
        driver_get w d (clock m) url = Ok tt ->
        driver_current_url w d (S (clock m)) = Ok final ->
        validate_coupon_url w final = Ok answer ->
        trace (snd (_resolve_redirect w url m))
        = EvValidate final :: EvCurrentUrl :: EvSleep 2 :: EvDriverGet url
            :: trace m).
Proof.
  intros Hd.
  split.
  { unfold _resolve_redirect, try_except, bind, gets, do_driver_get, sleep,
      do_current_url, do_validate, tick, emit, lift, log, ret. simpl.
    rewrite Hd. simpl.
    destruct (driver_get w d (clock m) url) as [[]|e]; [|reflexivity]. simpl.
    destruct (driver_current_url w d (S (clock m))) as [final|e];
      [|reflexivity]. simpl.
    destruct (validate_coupon_url w final) as [[v|]|e]; try reflexivity.
    destruct (truthy v); reflexivity. }
  split; [apply _resolve_redirect_quiet|].
  split; [symmetry; apply (_resolve_redirect_untouched w url m)|].
  split.
  - intros e He.
    unfold _resolve_redirect, try_except, bind, gets, do_driver_get, tick, emit,
      lift, log, ret. simpl. rewrite Hd. simpl. rewrite He. reflexivity.
  - intros final answer Hg Hc Hv.
    unfold _resolve_redirect, try_except, bind, gets, do_driver_get, sleep,
      do_current_url, do_validate, tick, emit, lift, log, ret. simpl.
    rewrite Hd. simpl. rewrite Hg. simpl. rewrite Hc. simpl. rewrite Hv.
    destruct answer as [v|]; [destruct (truthy v)|]; reflexivity.
Qed.

Lemma _resolve_redirect_single_attempt_witness :
  navigations_of
    (trace (snd (_resolve_redirect hostile_world "go-1" (with_session 1 None))))
  = ["go-1"]
  /\ trace (snd (_resolve_redirect hostile_world "go-1" (with_session 1 None)))
     = [EvLog DEBUG; EvDriverGet "go-1"]
  /\ trace (snd (_resolve_redirect friendly_world "go-1" (with_session 1 None)))
     = [EvValidate course_url; EvCurrentUrl; EvSleep 2; EvDriverGet "go-1"].
Proof.
  destruct (_resolve_redirect_single_attempt hostile_world 7 "go-1"
              (with_session 1 None) eq_refl) as [H1 [_ [_ [H2 _]]]].
  destruct (_resolve_redirect_single_attempt friendly_world 7 "go-1"
              (with_session 1 None) eq_refl) as [_ [_ [_ [_ H3]]]].
  split; [exact H1|].
  split; [apply (H2 (Exception "WebDriverException")); reflexivity|].
  apply (H3 course_url (Some course_url)); reflexivity.
Defined.

Section Provenance.

Variable w : world.

Lemma _resolve_redirect_validated (url : string) (m : machine) (v : string) :
  fst (_resolve_redirect w url m) = Ok (Some v) ->
  validated w v /\ driver (self m) <> None.
Proof.
  destruct (driver (self m)) as [d|] eqn:Hd.
  - rewrite (_resolve_redirect_with_session w d url m Hd).
    unfold navigation.
    destruct (driver_get w d (clock m) url) as [[]|e]; [|discriminate].
    destruct (driver_current_url w d (S (clock m))) as [final|e];
      [|discriminate].
    destruct (validate_coupon_url w final) as [answer|e] eqn:Hv;
      [|discriminate].
    intros [= Ha]. split; [|discriminate]. split.
    + now apply accepted_truthy in Ha.
    + exists final. rewrite Hv. f_equal.
      unfold accepted in Ha. destruct answer as [u|]; [|discriminate].
      destruct (truthy u); [|discriminate]. exact Ha.
  - rewrite (_resolve_redirect_without_session w url m Hd). discriminate.
Qed.

Lemma yields_for_each {A S} (P : S -> Prop) (body : A -> S -> M S) (l : list A) :
  (forall x acc, P acc -> yields P (body x acc)) ->
  forall acc, P acc -> yields P (for_each l body acc).
Proof.
  intros Hb. induction l as [|x r IH]; intros acc Ha m a; simpl.
  - intros [= <-]. exact Ha.
  - unfold bind. specialize (Hb x acc Ha m).
    destruct (body x acc m) as [[acc'|e] m']; simpl in *; [|discriminate].
    apply IH. now apply Hb.
Qed.

Lemma resolve_into_validated (url : string) (links : list string) :
  Forall (validated w) links -> yields (Forall (validated w)) (resolve_into w url links).
Proof.
  intros Hl m a. destruct (resolve_into_spec w url links m) as [-> _].
  intros [= <-].
  destruct (fst (_resolve_redirect w url m)) as [[v|]|e] eqn:E; try exact Hl.
  apply Forall_app. split; [exact Hl|].
  constructor; [|constructor]. now apply (_resolve_redirect_validated url m).
Qed.

Lemma gather_validated (post_links : list string) :
  yields (Forall (validated w)) (gather_udemy_course_links w post_links).
Proof.
  unfold gather_udemy_course_links.
  apply yields_for_each; [|constructor].
  intros post acc Ha m a. unfold bind.
  destruct (_get_coupon_redirect_links w post m) as [[redirects|e] m'];
    [|discriminate].
  apply yields_for_each; [|exact Ha].
  intros url links. apply resolve_into_validated.
Qed.

End Provenance.

(** X9: a link returned by [_resolve_redirect] is never the empty string
    and is an answer of the validator; and a link is returned only when
    there is a session. *)
Theorem _resolve_redirect_returns_validated
        (w : world) (url : string) (m : machine) (v : string) :
  fst (_resolve_redirect w url m) = Ok (Some v) ->
  v <> EmptyString
  /\ (exists final, validate_coupon_url w final = Ok (Some v))
  /\ driver (self m) <> None.
Proof.
  intros H. destruct (_resolve_redirect_validated w url m v H) as [[Ht Hv] Hd].
  split; [|split; assumption].
  intros ->. discriminate.
Qed.

Lemma _resolve_redirect_returns_validated_witness :
  course_url <> EmptyString
  /\ (exists final, validate_coupon_url friendly_world final = Ok (Some course_url))
  /\ driver (self (with_session 1 None)) <> None.
Proof.
  apply (_resolve_redirect_returns_validated friendly_world "go-1"
           (with_session 1 None) course_url).
  reflexivity.
Defined.

(** X10: every link in the list [gather_udemy_course_links] returns is a
    non-empty string that the validator returned for some address. *)
Theorem gather_returns_validated_links
        (w : world) (post_links : list string) (m : machine) (links : list string) :
  fst (gather_udemy_course_links w post_links m) = Ok links ->
  forall v, In v links ->
    v <> EmptyString /\ exists final, validate_coupon_url w final = Ok (Some v).
Proof.
  intros H v Hv.
  pose proof (gather_validated w post_links m links H) as F.
  rewrite Forall_forall in F. destruct (F v Hv) as [Ht He].
  split; [|exact He]. intros ->. discriminate.
Qed.

Lemma gather_returns_validated_links_witness :
  course_url <> EmptyString
  /\ exists final, validate_coupon_url friendly_world final = Ok (Some course_url).
Proof.
  apply (gather_returns_validated_links friendly_world ["post-1"]
           (with_session 1 None) [course_url]).
  - reflexivity.
  - now left.
Defined.

(** ** Gathering the links of a page *)

Section Gather.

Variable w : world.

Lemma post_body_returns (post : string) (acc : list string) :
  returns (redirect_links <- _get_coupon_redirect_links w post ;;
           for_each redirect_links (resolve_into w) acc).
Proof.
  returns_step; [apply _get_coupon_redirect_links_returns|].
  returns_step. unfold resolve_into.
  returns_step; [apply _resolve_redirect_returns|].
  match goal with x : option string |- _ => destruct x as [v|] end;
    [destruct (truthy v)|]; returns_step.
Qed.

Lemma post_body_requesting (post : string) (acc : list string) :
  requesting post
    (redirect_links <- _get_coupon_redirect_links w post ;;
     for_each redirect_links (resolve_into w) acc).
Proof.
  apply requesting_bind; [apply _get_coupon_redirect_links_requesting|].
  intros redirects. quiet_step. apply resolve_into_quiet.
Qed.

Lemma gather_loop_requests (posts : list string) (acc : list string) (m : machine) :
  requests_of
    (trace (snd (for_each posts
                   (fun post_url udemy_links =>
                      redirect_links <- _get_coupon_redirect_links w post_url ;;
                      for_each redirect_links (resolve_into w) udemy_links)
                   acc m)))
  = (rev posts ++ requests_of (trace m))%list.
Proof.
  revert acc m. induction posts as [|post r IH]; intros acc m; [reflexivity|].
  cbn [for_each rev]. unfold bind at 1.
  pose proof (post_body_requesting post acc m) as Hq.
  destruct (post_body_returns post acc m) as [acc' Ha].
  destruct ((redirect_links <- _get_coupon_redirect_links w post ;;
             for_each redirect_links (resolve_into w) acc) m) as [res m'].
  simpl in Ha, Hq. subst res.
  rewrite IH, Hq, <- app_assoc. reflexivity.
Qed.

Lemma _get_coupon_redirect_links_no_navigation (url : string) (m : machine) :
  navigations_of (trace (snd (_get_coupon_redirect_links w url m)))
  = navigations_of (trace m).
Proof.
  unfold _get_coupon_redirect_links, try_except, bind, do_requests_get, tick,
    emit, lift, BeautifulSoup, ret, log. simpl.
  destruct (requests_get w (clock m) url) as [resp|e]; [|reflexivity]. simpl.
  destruct (raise_for_status resp) as [[]|e]; [|reflexivity]. simpl.
  destruct (html_parser w (resp_text resp)) as [soup|e]; [|reflexivity]. simpl.
  rewrite first_hrefs_spec. reflexivity.
Qed.

Lemma inner_loop_without_session (urls : list string) (acc : list string)
      (m : machine) :
  driver (self m) = None ->
  for_each urls (resolve_into w) acc m = (Ok acc, m).
Proof.
  intros Hd. induction urls as [|url r IH]; [reflexivity|].
  cbn [for_each]. unfold bind at 1, resolve_into at 1, bind at 1.
  rewrite (_resolve_redirect_without_session w url m Hd). exact IH.
Qed.

Lemma bind_ok {A B} (c : M A) (k : A -> M B) (m m' : machine) (a : A) :
  c m = (Ok a, m') -> bind c k m = k a m'.
Proof. unfold bind. now intros ->. Qed.

Lemma post_body_without_session (post : string) (acc : list string)
      (m : machine) :
  driver (self m) = None ->
  exists m',
    (redirect_links <- _get_coupon_redirect_links w post ;;
     for_each redirect_links (resolve_into w) acc) m = (Ok acc, m')
    /\ driver (self m') = None
    /\ navigations_of (trace m') = navigations_of (trace m).
Proof.
  intros Hd.
  pose proof (_get_coupon_redirect_links_untouched w post m) as Hs.
  pose proof (_get_coupon_redirect_links_no_navigation post m) as Hn.
  destruct (_get_coupon_redirect_links_returns w post m) as [redirects Hr].
  unfold bind.
  destruct (_get_coupon_redirect_links w post m) as [res m'].
  simpl in Hs, Hn, Hr. subst res.
  assert (Hd' : driver (self m') = None) by (rewrite <- Hs; exact Hd).
  exists m'. rewrite (inner_loop_without_session redirects acc m' Hd').
  auto.
Qed.

Lemma gather_loop_without_session (posts : list string) (acc : list string)
      (m : machine) :
  driver (self m) = None ->
  fst (for_each posts
         (fun post_url udemy_links =>
            redirect_links <- _get_coupon_redirect_links w post_url ;;
            for_each redirect_links (resolve_into w) udemy_links)
         acc m) = Ok acc
  /\ navigations_of
       (trace (snd (for_each posts
                      (fun post_url udemy_links =>
                         redirect_links <- _get_coupon_redirect_links w post_url ;;
                         for_each redirect_links (resolve_into w) udemy_links)
                      acc m)))
     = navigations_of (trace m).
Proof.
  revert m. induction posts as [|post r IH]; intros m Hd; [now split|].
  cbn [for_each].
  destruct (post_body_without_session post acc m Hd) as [m' [E [Hd' Hn]]].
  rewrite !(bind_ok _ _ _ _ _ E).
  destruct (IH m' Hd') as [H1 H2]. split; [exact H1|].
  etransitivity; [exact H2|exact Hn].
Qed.

Lemma resolve_into_appends : appends (resolve_into w).
Proof.
  intros url m.
  exists (match fst (_resolve_redirect w url m) with
          | Ok (Some v) => [v]
          | _ => []
          end), (snd (_resolve_redirect w url m)).
  intros acc. destruct (resolve_into_spec w url acc m) as [Hf Hs].
  destruct (resolve_into w url acc m) as [res m']. simpl in Hf, Hs.
  subst res m'. f_equal. f_equal.
  destruct (fst (_resolve_redirect w url m)) as [[v|]|e];
    [reflexivity | now rewrite app_nil_r | now rewrite app_nil_r].
Qed.

Lemma for_each_appends {A} (body : A -> list string -> M (list string)) :
  appends body ->
  forall l m, exists r m',
    forall acc, for_each l body acc m = (Ok (acc ++ r)%list, m').
Proof.
  intros Hb l. induction l as [|x l IH]; intros m.
  - exists [], m. intros acc. simpl. now rewrite app_nil_r.
  - destruct (Hb x m) as [r1 [m1 H1]]. destruct (IH m1) as [r2 [m2 H2]].
    exists (r1 ++ r2)%list, m2. intros acc.
    cbn [for_each]. unfold bind. rewrite H1, H2. now rewrite app_assoc.
Qed.

Lemma post_body_appends :
  appends (fun post_url udemy_links =>
             redirect_links <- _get_coupon_redirect_links w post_url ;;
             for_each redirect_links (resolve_into w) udemy_links).
Proof.
  intros post m. unfold bind.
  destruct (_get_coupon_redirect_links_returns w post m) as [redirects Hr].
  destruct (_get_coupon_redirect_links w post m) as [res m1].
  simpl in Hr. subst res.
  apply (for_each_appends _ resolve_into_appends).
Qed.

Lemma for_each_app {A S} (body : A -> S -> M S) (l1 l2 : list A) (acc : S)
      (m : machine) :
  for_each (l1 ++ l2) body acc m
  = bind (for_each l1 body acc) (for_each l2 body) m.
Proof.
  revert acc m. induction l1 as [|x l1 IH]; intros acc m; [reflexivity|].
  cbn [app for_each]. unfold bind.
  destruct (body x acc m) as [[acc'|e] m']; [|reflexivity].
  exact (IH acc' m').
Qed.

End Gather.

(** X11: [gather_udemy_course_links] fetches every post link exactly once,
    in the order of the list, and nothing else, whatever the pages and the
    browser answer; and it changes no attribute of the scraper. *)
Theorem gather_fetches_each_post_once
        (w : world) (post_links : list string) (m : machine) :
  requests_of (trace (snd (gather_udemy_course_links w post_links m)))
  = (rev post_links ++ requests_of (trace m))%list
  /\ self (snd (gather_udemy_course_links w post_links m)) = self m.
Proof.
  split.
  - apply gather_loop_requests.
  - symmetry. apply (gather_udemy_course_links_untouched w post_links m).
Qed.

(** X12: without a session [gather_udemy_course_links] returns no link and
    never sends the browser anywhere, whatever the post pages hold (it
    still fetches them). *)
Theorem gather_without_session
        (w : world) (post_links : list string) (m : machine) :
  driver (self m) = None ->
  fst (gather_udemy_course_links w post_links m) = Ok []
  /\ navigations_of (trace (snd (gather_udemy_course_links w post_links m)))
     = navigations_of (trace m).
Proof.
  apply gather_loop_without_session.
Qed.

Lemma gather_without_session_witness :
  fst (gather_udemy_course_links friendly_world ["post-1"]
         (boot (__init__ true None))) = Ok []
  /\ navigations_of
       (trace (snd (gather_udemy_course_links friendly_world ["post-1"]
                      (boot (__init__ true None)))))
     = [].
Proof.
  apply (gather_without_session friendly_world ["post-1"]
           (boot (__init__ true None))).
  reflexivity.
Defined.

(** X13: gathering over a list of posts that is split in two is gathering
    over the first part and then, from the machine that leaves, over the
    second: neither call raises, and the links of the whole are the links of
    the first part followed by those of the second. *)
Theorem gather_app (w : world) (posts1 posts2 : list string) (m : machine) :
  exists links1 m1 links2 m2,
    gather_udemy_course_links w posts1 m = (Ok links1, m1)
    /\ gather_udemy_course_links w posts2 m1 = (Ok links2, m2)
    /\ gather_udemy_course_links w (posts1 ++ posts2) m
       = (Ok (links1 ++ links2)%list, m2).
Proof.
  unfold gather_udemy_course_links.
  destruct (for_each_appends _ (post_body_appends w) posts1 m) as [r1 [m1 H1]].
  destruct (for_each_appends _ (post_body_appends w) posts2 m1) as [r2 [m2 H2]].
  exists r1, m1, r2, m2.
  split; [apply (H1 [])|]. split; [apply (H2 [])|].
  rewrite for_each_app, (bind_ok _ _ _ _ _ (H1 [])). apply H2.
Qed.

(** ** One call of [get_links] *)

Lemma yields_ret {A} (P : A -> Prop) (a : A) : P a -> yields P (ret a).
Proof. intros Ha m b [= <-]. exact Ha. Qed.

Lemma yields_bind {A B} (Q : A -> Prop) (P : B -> Prop) (c : M A) (k : A -> M B) :
  yields Q c -> (forall a, Q a -> yields P (k a)) -> yields P (bind c k).
Proof.
  intros Hc Hk m b. unfold bind. specialize (Hc m).
  destruct (c m) as [[a|e] m']; simpl in *; [|discriminate].
  apply Hk. now apply Hc.
Qed.

Lemma yields_try_except {A} (P : A -> Prop) (body : M A) (handler : exn -> M A) :
  yields P body -> (forall e, yields P (handler e)) ->
  yields P (try_except body handler).
Proof.
  intros Hb Hh m a. unfold try_except. specialize (Hb m).
  destruct (body m) as [[b|e] m']; simpl in *.
  - apply Hb.
  - apply Hh.
Qed.

Lemma yields_any {A} (c : M A) : yields (fun _ => True) c.
Proof. now intros m a _. Qed.

Lemma requests_try_except {A} (body : M A) (handler : exn -> M A) (m : machine) :
  (forall e, quiet (handler e)) ->
  requests_of (trace (snd (try_except body handler m)))
  = requests_of (trace (snd (body m))).
Proof.
  intros Hh. unfold try_except. destruct (body m) as [[a|e] m']; simpl.
  - reflexivity.
  - apply Hh.
Qed.

Lemma requests_bind {A B} (c : M A) (k : A -> M B) (m : machine) :
  (forall a, quiet (k a)) ->
  requests_of (trace (snd (bind c k m))) = requests_of (trace (snd (c m))).
Proof.
  intros Hk. unfold bind. destruct (c m) as [[a|e] m']; simpl.
  - apply Hk.
  - reflexivity.
Qed.

Section GetLinks.

Variable w : world.

(** The block of [get_links] under its [try], for the page at [url]. *)
Lemma listing_block_keeps (R : scraper -> scraper -> Prop) `{Frame R}
      (url : string) :
  (forall s p, last_page s = None -> R s (set_last_page (Some p) s)) ->
  keeps R
    (try_except
       (post_links <- _get_post_links w url ;;
        log DEBUG ;;
        udemy_links <- gather_udemy_course_links w post_links ;;
        for_each udemy_links (fun _ _ => log DEBUG) tt ;;
        ret udemy_links)
       (fun e => log ERROR ;; ret [])).
Proof.
  intros HR.
  keeps_step; [|repeat keeps_step].
  keeps_step; [now apply _get_post_links_keeps|].
  keeps_step; [keeps_step|].
  keeps_step;
    [apply keeps_weaken; [exact _|apply gather_udemy_course_links_untouched]|].
  repeat keeps_step.
Qed.

Lemma listing_block_validated (url : string) :
  yields (Forall (validated w))
    (try_except
       (post_links <- _get_post_links w url ;;
        log DEBUG ;;
        udemy_links <- gather_udemy_course_links w post_links ;;
        for_each udemy_links (fun _ _ => log DEBUG) tt ;;
        ret udemy_links)
       (fun e => log ERROR ;; ret [])).
Proof.
  apply yields_try_except.
  - apply (yields_bind (fun _ => True)); [apply yields_any|].
    intros posts _.
    apply (yields_bind (fun _ => True)); [apply yields_any|].
    intros _ _.
    apply (yields_bind (Forall (validated w))); [apply gather_validated|].
    intros links Hl.
    apply (yields_bind (fun _ => True)); [apply yields_any|].
    intros _ _. now apply yields_ret.
  - intros e.
    apply (yields_bind (fun _ => True)); [apply yields_any|].
    intros _ _. apply yields_ret. constructor.
Qed.

Lemma listing_block_requests (url : string) (m : machine) :
  requests_of
    (trace (snd (try_except
                   (post_links <- _get_post_links w url ;;
                    log DEBUG ;;
                    udemy_links <- gather_udemy_course_links w post_links ;;
                    for_each udemy_links (fun _ _ => log DEBUG) tt ;;
                    ret udemy_links)
                   (fun e => log ERROR ;; ret []) m)))
  = (rev (match page_at w url m with
          | Some soup => post_links_of w soup m
          | None => []
          end)
     ++ url :: requests_of (trace m))%list.
Proof.
  rewrite requests_try_except by (intros e; repeat quiet_step).
  pose proof (_get_post_links_requesting w url m) as Hq.
  assert (Hp : exists m2,
             _get_post_links w url m
             = (Ok (match page_at w url m with
                    | Some soup => post_links_of w soup m
                    | None => []
                    end), m2)).
  { destruct (page_at w url m) as [soup|] eqn:P.
    - pose proof (_get_post_links_result w _ _ _ P) as Hf.
      destruct (_get_post_links w url m) as [res m2]. simpl in Hf. subst res.
      eauto.
    - destruct (_get_post_links_failure w _ _ P) as [Hf _].
      destruct (_get_post_links w url m) as [res m2]. simpl in Hf. subst res.
      eauto. }
  destruct Hp as [m2 Hp]. rewrite Hp in Hq. simpl in Hq.
  rewrite (bind_ok _ _ _ _ _ Hp).
  rewrite (bind_ok _ _ _ _ tt (eq_refl : log DEBUG m2 = (Ok tt, _))).
  rewrite requests_bind by (intros links; repeat quiet_step).
  unfold gather_udemy_course_links. rewrite gather_loop_requests.
  simpl. now rewrite Hq.
Qed.

(** [get_links] from the machine in which it looks at the session. *)
Lemma get_links_entered (m : machine) :
  exists m1,
    init_driver w {| self := set_current_page (current_page (self m) + 1) (self m);
                     clock := clock m; trace := trace m |} = (Ok tt, m1)
    /\ get_links w m
       = match driver (self m1) with
         | None => (log ERROR ;; ret []) m1
         | Some _ =>
             try_except
               (post_links <- _get_post_links w (page_url_of (current_page (self m1))) ;;
                log DEBUG ;;
                udemy_links <- gather_udemy_course_links w post_links ;;
                for_each udemy_links (fun _ _ => log DEBUG) tt ;;
                ret udemy_links)
               (fun e => log ERROR ;; ret []) m1
         end.
Proof.
  pose (m0 := {| self := set_current_page (current_page (self m) + 1) (self m);
                 clock := clock m; trace := trace m |}).
  destruct (init_driver_returns w m0) as [[] Hi].
  destruct (init_driver w m0) as [r m1] eqn:E. simpl in Hi. subst r.
  exists m1. split; [exact E|].
  unfold get_links. unfold bind at 1 2, gets at 1, update at 1. simpl.
  fold m0. rewrite (bind_ok _ _ _ _ _ E).
  unfold bind at 1, gets at 1. simpl.
  destruct (driver (self m1)); reflexivity.
Qed.

End GetLinks.

(** X14: a call of [get_links] that ends without a session returns no link
    and has made no HTTP request: without the browser the listing page is
    not even fetched. *)
Theorem get_links_without_session (w : world) (m : machine) :
  driver (self (snd (get_links w m))) = None ->
  fst (get_links w m) = Ok []
  /\ requests_of (trace (snd (get_links w m))) = requests_of (trace m).
Proof.
  destruct (get_links_entered w m) as [m1 [E ->]].
  pose proof (init_driver_quiet w
                {| self := set_current_page (current_page (self m) + 1) (self m);
                   clock := clock m; trace := trace m |}) as Hq.
  rewrite E in Hq. simpl in Hq.
  destruct (driver (self m1)) as [d|] eqn:Hd.
  - intros Hn. exfalso.
    pose proof (listing_block_keeps w same_driver
                  (page_url_of (current_page (self m1)))
                  (fun _ _ _ => eq_refl) m1) as K.
    unfold same_driver in K. rewrite K, Hd in Hn. discriminate.
  - intros _. split; [reflexivity|exact Hq].
Qed.

Lemma get_links_without_session_witness :
  fst (get_links hostile_world (boot (__init__ true None))) = Ok []
  /\ requests_of (trace (snd (get_links hostile_world (boot (__init__ true None)))))
     = [].
Proof.
  apply (get_links_without_session hostile_world (boot (__init__ true None))).
  reflexivity.
Defined.

(** X15: a call of [get_links] that has a session fetches the listing page
    of the advanced counter first (the root URL for page 1, the root URL
    followed by /page/n otherwise) and then each post link that
    [_get_post_links] returned for that page once, in order, and nothing
    else: the post links of the page when its pagination block does not
    raise, and none otherwise. *)
Theorem get_links_requests (w : world) (m : machine) :
  driver (self (snd (get_links w m))) <> None ->
  requests_of (trace (snd (get_links w m)))
  = (rev (match listing_soup w m with
          | Some soup =>
              match last_page (self m),
                    detected_last_page w soup (current_page (self m) + 1) with
              | None, Raise _ => []
              | _, _ => flat_map first_anchor_href (find_all is_offer_article soup)
              end
          | None => []
          end)
     ++ page_url_of (current_page (self m) + 1) :: requests_of (trace m))%list.
Proof.
  unfold listing_soup. cbv zeta.
  change (snd ((cp <- gets current_page ;;
                update (set_current_page (cp + 1)) ;;
                init_driver w) m))
    with (snd (init_driver w
                 {| self := set_current_page (current_page (self m) + 1) (self m);
                    clock := clock m; trace := trace m |})).
  destruct (get_links_entered w m) as [m1 [E ->]].
  pose proof (init_driver_quiet w
                {| self := set_current_page (current_page (self m) + 1) (self m);
                   clock := clock m; trace := trace m |}) as Hq.
  rewrite E in Hq. simpl in Hq.
  destruct (init_driver_pages w
              {| self := set_current_page (current_page (self m) + 1) (self m);
                 clock := clock m; trace := trace m |}) as [Hl Hc].
  rewrite E in Hl, Hc |- *. simpl in Hl, Hc |- *.
  destruct (driver (self m1)) as [d|] eqn:Hd.
  - intros _. rewrite listing_block_requests, Hq, Hc.
    unfold post_links_of, pagination_completes. rewrite Hl, Hc.
    destruct (page_at w (page_url_of (current_page (self m) + 1)) m1)
      as [soup|]; [|reflexivity].
    destruct (last_page (self m)); [reflexivity|].
    destruct (detected_last_page w soup (current_page (self m) + 1));
      reflexivity.
  - intros Hn. exfalso. apply Hn. simpl. exact Hd.
Qed.

Lemma get_links_requests_witness :
  requests_of (trace (snd (get_links friendly_world (boot (__init__ true None)))))
  = ["post-1"; DOMAIN].
Proof.
  apply (get_links_requests friendly_world (boot (__init__ true None))).
  discriminate.
Defined.

(** X16: every link [run] returns is a non-empty string that the validator
    returned. *)
Theorem run_returns_validated_links
        (w : world) (m : machine) (links : list string) :
  fst (run w m) = Ok links ->
  forall v, In v links ->
    v <> EmptyString /\ exists final, validate_coupon_url w final = Ok (Some v).
Proof.
  rewrite run_result.
  destruct (get_links_entered w m) as [m1 [_ ->]].
  intros H v Hv.
  assert (F : Forall (validated w) links).
  { destruct (driver (self m1)) as [d|].
    - exact (listing_block_validated w _ m1 links H).
    - injection H as <-. constructor. }
  rewrite Forall_forall in F. destruct (F v Hv) as [Ht He].
  split; [|exact He]. intros ->. discriminate.
Qed.

Lemma run_returns_validated_links_witness :
  course_url <> EmptyString
  /\ exists final, validate_coupon_url friendly_world final = Ok (Some course_url).
Proof.
  apply (run_returns_validated_links friendly_world (boot (__init__ true None))
           [course_url]).
  - reflexivity.
  - now left.
Defined.

(** ** A page number that does not convert *)

(** X17: while [last_page] is [None], a pagination anchor whose stripped
    text [isdigit] accepts and [int] cannot convert (superscript two, a
    digit string over the interpreter's limit) makes [_get_post_links]
    return no post link, log at debug level and leave the scraper as it
    was, whatever offers the page holds.  Once [last_page] is set the
    pagination control is not read and the same page gives its links. *)
Theorem unconvertible_page_number
        (w : world) (page_url : string) (m : machine) (soup pagination : node) :
  page_at w page_url m = Some soup ->
  find is_pagination soup = Some pagination ->
  In None (map (int (python w)) (kept_texts w (find_all is_anchor pagination))) ->
  (last_page (self m) = None ->
   _get_post_links w page_url m = (Ok [], logged DEBUG (fetched page_url m)))
  /\ (last_page (self m) <> None ->
      fst (_get_post_links w page_url m)
      = Ok (flat_map first_anchor_href (find_all is_offer_article soup))).
Proof.
  intros P F N. rewrite (_get_post_links_success w _ _ _ P).
  split.
  - intros ->. unfold detected_last_page.
    now rewrite F, page_numbers_of_spec, (all_some_None _ N).
  - intros Hl. destruct (last_page (self m)); [reflexivity|congruence].
Qed.

Lemma unconvertible_page_number_witness :
  _get_post_links superscript_world DOMAIN (with_session 1 None)
  = (Ok [], logged DEBUG (fetched DOMAIN (with_session 1 None)))
  /\ fst (_get_post_links superscript_world DOMAIN (with_session 1 (Some 3%Z)))
     = Ok ["post-1"].
Proof.
  split.
  - apply (unconvertible_page_number superscript_world DOMAIN
             (with_session 1 None) superscript_page
             (Tag "ul" (Some ["page-numbers"]) None
                [Tag "li" None None [anchor "/page/1" "1"];
                 Tag "li" None None [anchor_with "/page/2" [178%N]]])
             eq_refl eq_refl).
    + right. left. reflexivity.
    + reflexivity.
  - apply (unconvertible_page_number superscript_world DOMAIN
             (with_session 1 (Some 3%Z)) superscript_page
             (Tag "ul" (Some ["page-numbers"]) None
                [Tag "li" None None [anchor "/page/1" "1"];
                 Tag "li" None None [anchor_with "/page/2" [178%N]]])
             eq_refl eq_refl).
    + right. left. reflexivity.
    + discriminate.
Defined.
